(** * annotate.py: the command-line client of the annotation service

    A shallow embedding of
    [plugins/docx-easy-comments/skills/docx-easy-comments/annotate.py]
    and the properties of its specification.

    The script is straight-line Python that reads its arguments, reads
    files, performs one HTTP POST and writes one file.  It is embedded in
    a state-and-exception monad: the state holds what the script does to
    the outside (standard output, the requests sent, the files on disk),
    exceptions are Python's, and [sys.exit] is the exception [SystemExit]
    as in Python.  What the script obtains from the outside (library
    functions, the contents of files, the service's answer) is a record
    [Env] that every theorem quantifies over. *)

From Stdlib Require Import String Ascii ZArith List Lia.
From stdpp Require Import base option strings gmap.
Import ListNotations.

Local Open Scope string_scope.
Local Open Scope Z_scope.

Set Warnings "-register-all".

(** ** Data *)

(** A value produced by [json.loads]: Python's [None], [bool], [int],
    [float], [str], [list] and [dict].  A [dict] is given by its items;
    [json.loads] keeps one item per key. *)
Inductive json : Type :=
| JNull
| JBool (b : bool)
| JInt (n : Z)
| JFloat (literal : string)
| JStr (s : string)
| JArr (items : list json)
| JObj (fields : list (string * json)).

(** [isinstance(v, list)] and [isinstance(v, dict)]. *)
Definition is_list (v : json) : bool :=
  match v with JArr _ => true | _ => false end.

Definition is_dict (v : json) : bool :=
  match v with JObj _ => true | _ => false end.

(** Lookup of a key among the items of a [dict]. *)
Fixpoint dict_get (k : string) (d : list (string * json)) : option json :=
  match d with
  | [] => None
  | (k', v) :: d' => if String.eqb k k' then Some v else dict_get k d'
  end.

(** The exception classes the script names or can meet. *)
Inductive exn_class : Type :=
| IndexError
| KeyError
| FileNotFoundError
| IOError
| JSONDecodeError
| ValueError
| UnicodeDecodeError
| TypeError
| AttributeError
| RequestException.

#[global] Instance exn_class_eq_dec : EqDecision exn_class.
Proof. solve_decision. Defined.

(** [subclass c d]: class [c] is [d] or derives from it. [IOError] is
    [OSError]; the decoding errors are [ValueError]s; [requests]
    derives [RequestException] from [IOError]. *)
Definition subclass (c d : exn_class) : bool :=
  match c, d with
  | FileNotFoundError, IOError => true
  | RequestException, IOError => true
  | JSONDecodeError, ValueError => true
  | UnicodeDecodeError, ValueError => true
  | _, _ => bool_decide (c = d)
  end.

(** An exception in flight: [SystemExit] (raised by [sys.exit], not an
    [Exception]) or an instance of a class with its [str()]. *)
Inductive exn : Type :=
| SystemExit (code : Z)
| Exc (c : exn_class) (msg : string).

(** [except (c1, c2, ...)] catches [e]. *)
Definition catches (cs : list exn_class) (e : exn) : bool :=
  match e with
  | SystemExit _ => false
  | Exc c _ => existsb (subclass c) cs
  end.

(** [str(e)] of a caught exception, as the f-strings print it. *)
Definition exn_str (e : exn) : string :=
  match e with
  | SystemExit c => EmptyString
  | Exc _ msg => msg
  end.

(** What [print] sends to standard output: the object handed to
    [json.dumps] with its [indent], or the usage text. *)
Inductive printed : Type :=
| PrintJson (indent : option Z) (v : json)
| PrintText (s : string).

(** The arguments of [requests.post]. [req_data] is the object whose
    [json.dumps] is the form field [request]. *)
Record request : Type := {
  req_url : string;
  req_file_name : string;
  req_file_bytes : list Byte.byte;
  req_file_mime : string;
  req_data : json;
  req_accept : string;
  req_timeout : Z
}.

(** The [Response] object: [resp.status_code], [resp.text] and
    [resp.json()], which raises when the body is not JSON ([None]). *)
Record response : Type := {
  status_code : Z;
  text : string;
  body_json : option json
}.

(** Results of the outside world. *)
Inductive result (A : Type) : Type :=
| Ok (a : A)
| Error (msg : string).
Arguments Ok {A} a.
Arguments Error {A} msg.

Inductive os_error : Type :=
| NotFound (msg : string)
| OtherOSError (msg : string).

Inductive text_read : Type :=
| TextOk (s : string)
| TextOSError (e : os_error)
| TextNotUtf8 (msg : string).

Inductive bytes_read : Type :=
| BytesOk (b : list Byte.byte)
| BytesOSError (e : os_error).

(** The outside world of one run. *)
Record Env : Type := {
  (** [import requests] succeeds *)
  requests_installed : bool;
  (** [json.loads] on text: the value, or a [JSONDecodeError] *)
  json_loads : string -> result json;
  (** [base64.b64decode] on a [str]: the bytes, or a [ValueError]
      (non-ASCII text, [binascii.Error]) *)
  b64decode_str : string -> result (list Byte.byte);
  (** [os.path.abspath] and [os.path.basename] *)
  abspath : string -> string;
  basename : string -> string;
  (** [open(p, "r", encoding="utf-8")] followed by [read()] *)
  read_text : string -> text_read;
  (** [open(p, "rb")] followed by [read()] *)
  read_bytes : string -> bytes_read;
  (** [open(p, "wb")]: [None] when the file is created or truncated *)
  open_wb : string -> option os_error;
  (** [requests.post]: the response, or a [RequestException] *)
  post : request -> result response
}.

(** ** The monad of the script *)

(** What a run has done so far. *)
Record state : Type := {
  stdout : list printed;
  posts : list request;
  disk : gmap string (list Byte.byte)
}.

Inductive res (A : Type) : Type :=
| Ret (a : A)
| Raise (e : exn).
Arguments Ret {A} a.
Arguments Raise {A} e.

Definition M (A : Type) : Type := state -> res A * state.

Definition ret {A} (a : A) : M A := fun st => (Ret a, st).

Definition bind {A B} (m : M A) (k : A -> M B) : M B :=
  fun st =>
    match m st with
    | (Ret a, st') => k a st'
    | (Raise e, st') => (Raise e, st')
    end.

Definition raise {A} (e : exn) : M A := fun st => (Raise e, st).

Notation "x <- m ;; k" := (bind m (fun x => k))
  (at level 100, m at next level, right associativity, only parsing).
Notation "m ;;; k" := (bind m (fun _ => k))
  (at level 100, right associativity, only parsing).

(** [try: m except cs as e: h e]. *)
Definition try_except {A} (m : M A) (cs : list exn_class) (h : exn -> M A) : M A :=
  fun st =>
    match m st with
    | (Raise e, st') => if catches cs e then h e st' else (Raise e, st')
    | r => r
    end.

(** [print(x)]. *)
Definition print (p : printed) : M unit :=
  fun st => (Ret tt, {| stdout := (stdout st ++ [p])%list; posts := posts st; disk := disk st |}).

(** [sys.exit(code)]. *)
Definition sys_exit {A} (code : Z) : M A := raise (SystemExit code).

(** Python slices and strips on [str]. *)

(** [s[:n]]. *)
Fixpoint str_slice_to (n : nat) (s : string) : string :=
  match n, s with
  | S n', String c s' => String c (str_slice_to n' s')
  | _, _ => EmptyString
  end.

Arguments str_slice_to : simpl never.

(** [s.rstrip("/")]. *)
Fixpoint rstrip_slash (s : string) : string :=
  match s with
  | EmptyString => EmptyString
  | String c s' =>
      match rstrip_slash s' with
      | EmptyString => if Ascii.eqb c "/" then EmptyString else String c EmptyString
      | r => String c r
      end
  end.

(** ** The script *)

(** The options as the argument loop holds them (lines 45 to 52). *)
Record opts : Type := {
  annotations_json : option string;
  service_url : string;
  author : string;
  initials : string;
  positional : list string
}.

Definition init_opts : opts := {|
  annotations_json := None;
  service_url := "https://comments-service.edumagick.com/";
  author := "AI Assistant";
  initials := "AI";
  positional := []
|}.

(** The help of lines 83 to 100. *)
Definition dq : string := String (ascii_of_N 34) EmptyString.

Definition help_type (name fields : string) : string :=
  "  { " +:+ dq +:+ "type" +:+ dq +:+ ": " +:+ dq +:+ name +:+ dq +:+ "," +:+ fields +:+ " }".

Definition help_field (name value : string) : string :=
  dq +:+ name +:+ dq +:+ ": " +:+ value.

Definition dots : string := dq +:+ "..." +:+ dq.

Definition usage_text : string :=
  "Usage: python3 annotate.py <input.docx> <output.docx> '<json>' [options]

Arguments:
  input.docx       Source Word document
  output.docx      Where to write the annotated document
  <json>           Annotations array as inline JSON string

Options:
  --json <file>    Read annotations from a JSON file instead of inline
  --url <url>      Service URL (default: https://comments-service.edumagick.com/)
  --author <name>  Author name (default: AI Assistant)
  --initials <i>   Author initials (default: AI)

Annotation types:
" +:+ help_type "Comment" ("  " +:+ help_field "find" dots +:+ ", " +:+ help_field "comment" dots) +:+ "
" +:+ help_type "Replace" ("  " +:+ help_field "find" dots +:+ ", " +:+ help_field "replacement" dots) +:+ "
" +:+ help_type "Delete" ("   " +:+ help_field "find" dots) +:+ "
" +:+ help_type "Insert" ("   " +:+ help_field "find" dots +:+ ", " +:+ help_field "text" dots +:+ ", "
        +:+ help_field "position" (dq +:+ "after" +:+ dq +:+ "|" +:+ dq +:+ "before" +:+ dq)).

(** The assignments of the loop. *)
Definition with_annotations_json (o : opts) (c : string) : opts :=
  {| annotations_json := Some c; service_url := service_url o;
     author := author o; initials := initials o; positional := positional o |}.

Definition with_service_url (o : opts) (u : string) : opts :=
  {| annotations_json := annotations_json o; service_url := u;
     author := author o; initials := initials o; positional := positional o |}.

Definition with_author (o : opts) (a : string) : opts :=
  {| annotations_json := annotations_json o; service_url := service_url o;
     author := a; initials := initials o; positional := positional o |}.

Definition with_initials (o : opts) (x : string) : opts :=
  {| annotations_json := annotations_json o; service_url := service_url o;
     author := author o; initials := x; positional := positional o |}.

(** [positional.append(arg)]. *)
Definition with_positional (o : opts) (arg : string) : opts :=
  {| annotations_json := annotations_json o; service_url := service_url o;
     author := author o; initials := initials o;
     positional := (positional o ++ [arg])%list |}.

Definition usage_error : string :=
  "Usage: python3 annotate.py <input.docx> <output.docx> '<json>' [--json FILE] [--url URL] [--author NAME] [--initials XX]".

Definition docx_mime : string :=
  "application/vnd.openxmlformats-officedocument.wordprocessingml.document".

(** [bail(msg)]: print the failure object and leave with status 1. *)
Definition bail {A} (msg : json) : M A :=
  print (PrintJson None (JObj [("ok", JBool false); ("error", msg)])) ;;;
  sys_exit 1.

(** [args[i]] right after [i += 1]: [rest] is [args[i:]]. *)
Definition next_arg (rest : list string) : M string :=
  match rest with
  | [] => raise (Exc IndexError "list index out of range")
  | a :: _ => ret a
  end.

(** Python's truth value of a [str] or [None]. *)
Definition truthy (x : option string) : bool :=
  match x with
  | None => false
  | Some s => negb (String.eqb s EmptyString)
  end.

(** [l[n] if len(l) > n else None]. *)
Definition item_or_none (l : list string) (n : nat) : option string := nth_error l n.

Section Script.

Context (E : Env).

(** Lines 29 to 33. *)
Definition import_requests : M unit :=
  if requests_installed E then ret tt
  else
    print (PrintJson None
             (JObj [("ok", JBool false);
                    ("error", JStr "Missing dependency: pip install requests")])) ;;;
    sys_exit 1.

Definition raise_os {A} (e : os_error) : M A :=
  match e with
  | NotFound msg => raise (Exc FileNotFoundError msg)
  | OtherOSError msg => raise (Exc IOError msg)
  end.

(** [with open(p, "r", encoding="utf-8") as f: f.read()]. *)
Definition open_read_text (p : string) : M string :=
  match read_text E p with
  | TextOk s => ret s
  | TextOSError e => raise_os e
  | TextNotUtf8 msg => raise (Exc UnicodeDecodeError msg)
  end.

(** [with open(p, "rb") as f: f.read()]. *)
Definition open_read_bytes (p : string) : M (list Byte.byte) :=
  match read_bytes E p with
  | BytesOk b => ret b
  | BytesOSError e => raise_os e
  end.

(** [open(p, "wb")]: creates the file or truncates it to nothing. *)
Definition open_write_bytes (p : string) : M unit :=
  match open_wb E p with
  | Some e => raise_os e
  | None =>
      fun st => (Ret tt, {| stdout := stdout st; posts := posts st;
                            disk := <[p := []]> (disk st) |})
  end.

(** [f.write(b)] on the file opened at [p], then the end of [with]. *)
Definition write_bytes (p : string) (b : list Byte.byte) : M unit :=
  fun st => (Ret tt, {| stdout := stdout st; posts := posts st;
                        disk := <[p := (default [] (disk st !! p) ++ b)%list]> (disk st) |}).

(** [json.loads(s)]. *)
Definition loads (s : string) : M json :=
  match json_loads E s with
  | Ok v => ret v
  | Error msg => raise (Exc JSONDecodeError msg)
  end.

(** [resp.json()]. *)
Definition resp_json (resp : response) : M json :=
  match body_json resp with
  | Some v => ret v
  | None => raise (Exc JSONDecodeError "Expecting value")
  end.

(** [requests.post(...)]: the request leaves, then the answer or a
    [RequestException]. *)
Definition requests_post (rq : request) : M response :=
  fun st =>
    let st' := {| stdout := stdout st; posts := (posts st ++ [rq])%list; disk := disk st |} in
    match post E rq with
    | Ok resp => (Ret resp, st')
    | Error msg => (Raise (Exc RequestException msg), st')
    end.

(** [err.get(k, dflt)]: only a [dict] has [get]. *)
Definition py_get (v : json) (k : string) (dflt : json) : M json :=
  match v with
  | JObj d => ret (default dflt (dict_get k d))
  | _ => raise (Exc AttributeError "object has no attribute 'get'")
  end.

(** [v.get(k)] in a place where [v] is known to be a [dict] (the right
    of [isinstance(v, dict) and ...]); a missing key gives [None]. *)
Definition dict_get_or_none (v : json) (k : string) : json :=
  match v with
  | JObj d => default JNull (dict_get k d)
  | _ => JNull
  end.

(** [v[k]] for a [str] key: a [dict] answers or raises [KeyError], any
    other value raises [TypeError]. *)
Definition py_subscript (v : json) (k : string) : M json :=
  match v with
  | JObj d =>
      match dict_get k d with
      | Some x => ret x
      | None => raise (Exc KeyError ("'" +:+ k +:+ "'"))
      end
  | _ => raise (Exc TypeError "indices must be integers or object is not subscriptable")
  end.

(** [base64.b64decode(v)]: a [str] is decoded, any other JSON value is
    not bytes-like. *)
Definition b64decode (v : json) : M (list Byte.byte) :=
  match v with
  | JStr s =>
      match b64decode_str E s with
      | Ok b => ret b
      | Error msg => raise (Exc ValueError msg)
      end
  | _ => raise (Exc TypeError "argument should be a bytes-like object or ASCII string")
  end.

(** Lines 53 to 105: [while i < len(args)], on the rest [args[i:]]. *)
Fixpoint parse_loop (args : list string) (o : opts) : M opts :=
  match args with
  | [] => ret o
  | arg :: rest =>
      (* the loop after the option's value: [i += 1] twice *)
      let after_value (o' : opts) : M opts :=
        match rest with
        | [] => ret o'
        | _ :: rest' => parse_loop rest' o'
        end in
      if String.eqb arg "--json" then
        c <- try_except (p <- next_arg rest ;; open_read_text p)
               [IndexError; FileNotFoundError; IOError]
               (fun e => bail (JStr ("Cannot read JSON file: " +:+ exn_str e))) ;;
        after_value (with_annotations_json o c)
      else if String.eqb arg "--url" then
        u <- try_except (next_arg rest) [IndexError]
               (fun _ => bail (JStr "Missing value for --url")) ;;
        after_value (with_service_url o u)
      else if String.eqb arg "--author" then
        a <- try_except (next_arg rest) [IndexError]
               (fun _ => bail (JStr "Missing value for --author")) ;;
        after_value (with_author o a)
      else if String.eqb arg "--initials" then
        x <- try_except (next_arg rest) [IndexError]
               (fun _ => bail (JStr "Missing value for --initials")) ;;
        after_value (with_initials o x)
      else if String.eqb arg "--help" || String.eqb arg "-h" then
        print (PrintText usage_text) ;;;
        sys_exit 0
      else
        parse_loop rest (with_positional o arg)
  end.

(** Lines 109 and 110: the third positional argument stands in only
    when no [--json] file was read. *)
Definition chosen_annotations (o : opts) : option string :=
  match annotations_json o with
  | None =>
      if (2 <? length (positional o))%nat then nth_error (positional o) 2
      else None
  | Some c => Some c
  end.

(** What the argument section hands to the rest of the script. *)
Record job : Type := {
  job_opts : opts;
  input_path : string;
  output_path : string;
  annotations : json
}.

(** Lines 107 to 113. *)
Definition check_args (o : opts) : M (string * string * string) :=
  let input_path := item_or_none (positional o) 0 in
  let output_path := item_or_none (positional o) 1 in
  let annotations_json := chosen_annotations o in
  if negb (truthy input_path) || negb (truthy output_path)
     || negb (truthy annotations_json)
  then bail (JStr usage_error)
  else ret (default EmptyString input_path, default EmptyString output_path,
            default EmptyString annotations_json).

(** Lines 116 to 121. *)
Definition validate_annotations (annotations_json : string) : M json :=
  try_except
    (annotations <- loads annotations_json ;;
     if negb (is_list annotations)
     then raise (Exc ValueError "Expected a JSON array of annotations")
     else ret annotations)
    [JSONDecodeError; ValueError]
    (fun e => bail (JStr ("Invalid annotations JSON: " +:+ exn_str e))).

(** Lines 29 to 121: the import and the section "Parse args". *)
Definition parse_args (args : list string) : M job :=
  import_requests ;;;
  o <- parse_loop args init_opts ;;
  x <- check_args o ;;
  let '(i, out, a) := x in
  annotations <- validate_annotations a ;;
  ret {| job_opts := o; input_path := i; output_path := out;
         annotations := annotations |}.

(** Lines 125 to 130: the section "Read input file". *)
Definition read_input (input_path : string) : M (list Byte.byte) :=
  let input_abs := abspath E input_path in
  try_except (open_read_bytes input_abs)
    [FileNotFoundError; IOError]
    (fun e => bail (JStr ("Cannot read input file: " +:+ exn_str e))).

(** Line 134. *)
Definition build_url (service_url : string) : string :=
  rstrip_slash service_url +:+ "/api/annotate".

(** Lines 135 to 147: the arguments of the POST. *)
Definition build_request (j : job) (file_bytes : list Byte.byte) : request := {|
  req_url := build_url (service_url (job_opts j));
  req_file_name := basename E (input_path j);
  req_file_bytes := file_bytes;
  req_file_mime := docx_mime;
  req_data := JObj [("author", JStr (author (job_opts j)));
                    ("initials", JStr (initials (job_opts j)));
                    ("annotations", annotations j)];
  req_accept := "application/json";
  req_timeout := 120
|}.

(** Lines 134 to 149: the section "Build and send request". *)
Definition send_request (j : job) (file_bytes : list Byte.byte) : M response :=
  try_except (requests_post (build_request j file_bytes))
    [RequestException]
    (fun e => bail (JStr ("Cannot connect to annotation service at "
                          +:+ service_url (job_opts j) +:+ ": " +:+ exn_str e))).

(** Lines 153 to 183: the section "Handle response". *)
Definition handle_response (output_path : string) (resp : response) : M unit :=
  if negb (status_code resp =? 200) then
    err <- try_except (resp_json resp)
             [JSONDecodeError; ValueError]
             (fun _ => bail (JStr (str_slice_to 500 (text resp)))) ;;
    if (status_code resp =? 422) && is_dict err && is_list (dict_get_or_none err "errors")
    then
      errors <- py_subscript err "errors" ;;
      print (PrintJson (Some 2)
               (JObj [("ok", JBool false);
                      ("error", JStr "One or more annotations could not be applied.");
                      ("errors", errors)])) ;;;
      sys_exit 2
    else
      msg <- py_get err "error" (JStr (str_slice_to 500 (text resp))) ;;
      bail msg
  else
    try_except
      (envelope <- resp_json resp ;;
       let out_path := abspath E output_path in
       open_write_bytes out_path ;;;
       file <- py_subscript envelope "file" ;;
       decoded <- b64decode file ;;
       write_bytes out_path decoded ;;;
       print (PrintJson (Some 2)
                (JObj [("ok", JBool true); ("output", JStr out_path)])) ;;;
       sys_exit 0)
      [KeyError; JSONDecodeError; ValueError; IOError]
      (fun e => bail (JStr ("Unexpected response from service: " +:+ exn_str e))).

(** The script up to the answer of the service. *)
Definition request_phase (args : list string) : M (job * response) :=
  j <- parse_args args ;;
  file_bytes <- read_input (input_path j) ;;
  resp <- send_request j file_bytes ;;
  ret (j, resp).

(** The whole script. *)
Definition main (args : list string) : M unit :=
  x <- request_phase args ;;
  handle_response (output_path (fst x)) (snd x).

End Script.

(** How the interpreter ends: an exit status, or the traceback of an
    exception nobody caught (the interpreter's status is then 1 and
    nothing more is printed on standard output). *)
Inductive outcome : Type :=
| Exited (code : Z)
| Traceback (c : exn_class) (msg : string).

(** A fresh run over the files [d]. *)
Definition start (d : gmap string (list Byte.byte)) : state :=
  {| stdout := []; posts := []; disk := d |}.

Definition run (E : Env) (args : list string) (st : state) : outcome * state :=
  match main E args st with
  | (Ret _, st') => (Exited 0, st')
  | (Raise (SystemExit c), st') => (Exited c, st')
  | (Raise (Exc c msg), st') => (Traceback c msg, st')
  end.

(** ** Words of the specification *)

(** [n] slashes. *)
Fixpoint slashes (n : nat) : string :=
  match n with
  | O => EmptyString
  | S n' => String "/" (slashes n')
  end.

(** The last character of [s] is a slash. *)
Fixpoint ends_with_slash (s : string) : bool :=
  match s with
  | EmptyString => false
  | String c EmptyString => Ascii.eqb c "/"
  | String _ s' => ends_with_slash s'
  end.

(** The words the argument loop reads as options. *)
Definition flags : list string :=
  ["--json"; "--url"; "--author"; "--initials"; "--help"; "-h"].

(** The annotations a request carries in its form field [request]. *)
Definition request_annotations (rq : request) : option json :=
  match req_data rq with
  | JObj d => dict_get "annotations" d
  | _ => None
  end.

(** The failure object [{"ok": false, "error": msg}]. *)
Definition failure (msg : json) : printed :=
  PrintJson None (JObj [("ok", JBool false); ("error", msg)]).

(** ** A test double of the outside world *)

Module Mock.

(** Value of a character of the base64 alphabet. *)
Definition b64_value (c : ascii) : option Z :=
  let n := Z.of_N (N_of_ascii c) in
  if (65 <=? n) && (n <=? 90) then Some (n - 65)
  else if (97 <=? n) && (n <=? 122) then Some (n - 71)
  else if (48 <=? n) && (n <=? 57) then Some (n + 4)
  else if n =? 43 then Some 62
  else if n =? 47 then Some 63
  else None.

Definition byte_of_Z (z : Z) : Byte.byte :=
  byte_of_ascii (ascii_of_N (Z.to_N (z mod 256))).

(** The lenient decoder of [binascii.a2b_base64]: characters outside
    the alphabet are skipped, padding ends the data. *)
Fixpoint a2b_base64 (s : string) (quad_pos : Z) (leftchar : Z) (pads : Z)
    (acc : list Byte.byte) : result (list Byte.byte) :=
  match s with
  | EmptyString =>
      if quad_pos =? 0 then Ok acc
      else if quad_pos =? 1 then Error "Invalid base64-encoded string"
      else Error "Incorrect padding"
  | String c s' =>
      if Ascii.eqb c "=" then
        if (2 <=? quad_pos) && (4 <=? quad_pos + (pads + 1)) then Ok acc
        else a2b_base64 s' quad_pos leftchar
               (if 2 <=? quad_pos then pads + 1 else pads) acc
      else
        match b64_value c with
        | None => a2b_base64 s' quad_pos leftchar pads acc
        | Some v =>
            if quad_pos =? 0 then a2b_base64 s' 1 v 0 acc
            else if quad_pos =? 1 then
              a2b_base64 s' 2 (Z.land v 15) 0
                (acc ++ [byte_of_Z (Z.lor (Z.shiftl leftchar 2) (Z.shiftr v 4))])%list
            else if quad_pos =? 2 then
              a2b_base64 s' 3 (Z.land v 3) 0
                (acc ++ [byte_of_Z (Z.lor (Z.shiftl leftchar 4) (Z.shiftr v 2))])%list
            else
              a2b_base64 s' 0 0 0
                (acc ++ [byte_of_Z (Z.lor (Z.shiftl leftchar 6) v)])%list
        end
  end.

Fixpoint is_ascii_str (s : string) : bool :=
  match s with
  | EmptyString => true
  | String c s' => (N_of_ascii c <? 128)%N && is_ascii_str s'
  end.

Definition decode (s : string) : result (list Byte.byte) :=
  if is_ascii_str s then a2b_base64 s 0 0 0 []
  else Error "string argument should contain only ASCII characters".

(** A parser that knows four texts. *)
Definition parse (s : string) : result json :=
  if String.eqb s "[]" then Ok (JArr [])
  else if String.eqb s "{}" then Ok (JObj [])
  else if String.eqb s "[1]" then Ok (JArr [JInt 1])
  else if String.eqb s "7" then Ok (JInt 7)
  else Error "Expecting value: line 1 column 1 (char 0)".

(** The world of the tests: a working directory [/work], an input
    document, two annotation files, and a service that gives [answer]. *)
Definition env (answer : result response) : Env := {|
  requests_installed := true;
  json_loads := parse;
  b64decode_str := decode;
  abspath := fun p => "/work/" +:+ p;
  basename := fun p => p;
  read_text := fun p =>
    if String.eqb p "ann.json" then TextOk "[1]"
    else if String.eqb p "empty.json" then TextOk EmptyString
    else TextOSError (NotFound "[Errno 2] No such file or directory");
  read_bytes := fun p =>
    if String.eqb p "/work/in.docx" then BytesOk [Byte.x50; Byte.x4b]
    else BytesOSError (NotFound "[Errno 2] No such file or directory");
  open_wb := fun _ => None;
  post := fun _ => answer
|}.

(** The command line [in.docx out.docx '[]'], the job the script
    makes of it, and the bytes of the input document. *)
Definition args : list string := ["in.docx"; "out.docx"; "[]"].

Definition job_of (o : opts) (anns : json) : job :=
  {| job_opts := o; input_path := "in.docx"; output_path := "out.docx";
     annotations := anns |}.

Definition opts_of (a : option string) (url : string) (pos : list string) : opts :=
  {| annotations_json := a; service_url := url;
     author := "AI Assistant"; initials := "AI"; positional := pos |}.

Definition the_job : job :=
  job_of (opts_of None "https://comments-service.edumagick.com/" args) (JArr []).

Definition job_missing_input : job :=
  {| job_opts := opts_of None "https://comments-service.edumagick.com/"
                   ["nope.docx"; "out.docx"; "[]"];
     input_path := "nope.docx"; output_path := "out.docx";
     annotations := JArr [] |}.

Definition docx : list Byte.byte := [Byte.x50; Byte.x4b].

(** An answer of the service. *)
Definition answer (status : Z) (body : string) (parsed : option json) : result response :=
  Ok {| status_code := status; text := body; body_json := parsed |}.

Definition default_url : string := "https://comments-service.edumagick.com/".

(** The worlds of the tests, named after what the service does. *)
Definition success_response : response :=
  {| status_code := 200; text := "ok";
     body_json := Some (JObj [("file", JStr "aGk=")]) |}.

Definition success_world : Env := env (Ok success_response).

Definition two_errors : list json := [JStr "anchor not found"; JInt 3].

Definition semantic_failure_response : response :=
  {| status_code := 422; text := "unprocessable";
     body_json := Some (JObj [("errors", JArr two_errors)]) |}.

Definition semantic_failure_world : Env := env (Ok semantic_failure_response).

Definition offline_world : Env := env (Error "Connection refused").

(** 200 with the JSON object [{}]. *)
Definition no_field_response : response :=
  {| status_code := 200; text := "{}"; body_json := Some (JObj []) |}.

Definition no_field_world : Env := env (Ok no_field_response).

(** 500 with the JSON array [[]]. *)
Definition array_body_response : response :=
  {| status_code := 500; text := "[]"; body_json := Some (JArr []) |}.

Definition array_body_world : Env := env (Ok array_body_response).

(** 404 with a JSON string. *)
Definition string_body_response : response :=
  {| status_code := 404; text := "'not found'"; body_json := Some (JStr "not found") |}.

Definition string_body_world : Env := env (Ok string_body_response).

(** Command lines. *)
Definition args_not_array : list string := ["in.docx"; "out.docx"; "7"].

Definition args_empty_file : list string :=
  ["in.docx"; "out.docx"; "[]"; "--json"; "empty.json"].

Definition args_missing_input : list string := ["nope.docx"; "out.docx"; "[]"].

Definition args_url : list string :=
  ["in.docx"; "--url"; "http://x/"; "out.docx"; "[]"].

Definition args_json_last : list string :=
  ["in.docx"; "out.docx"; "[]"; "--json"; "ann.json"].

Definition args_json_first : list string :=
  ["--json"; "ann.json"; "in.docx"; "out.docx"; "[]"].

(** The requests the script builds from [args_url] and from
    [args_json_last]. *)
Definition request_url : request :=
  build_request offline_world (job_of (opts_of None "http://x/" args) (JArr [])) docx.

Definition request_json : request :=
  build_request offline_world
    (job_of (opts_of (Some "[1]") default_url args) (JArr [JInt 1])) docx.

End Mock.

(** ** The argument loop as a relation *)

(** One turn of the loop in a run that gets through its arguments:
    from the options [o] and the arguments left, to the options after
    the turn and the arguments still left. *)
Inductive turn (E : Env) (o : opts) : list string -> opts -> list string -> Prop :=
| turn_json p c rest :
    read_text E p = TextOk c ->
    turn E o ("--json" :: p :: rest) (with_annotations_json o c) rest
| turn_url u rest :
    turn E o ("--url" :: u :: rest) (with_service_url o u) rest
| turn_author a rest :
    turn E o ("--author" :: a :: rest) (with_author o a) rest
| turn_initials x rest :
    turn E o ("--initials" :: x :: rest) (with_initials o x) rest
| turn_positional arg rest :
    ~ In arg flags ->
    turn E o (arg :: rest) (with_positional o arg) rest.

(** The turns of a whole loop. *)
Inductive parses (E : Env) : opts -> list string -> opts -> Prop :=
| parses_done o : parses E o [] o
| parses_turn o args o' rest o1 :
    turn E o args o' rest -> parses E o' rest o1 -> parses E o args o1.

(** ** How the steps of the script act on the state *)

(** A computation that sends nothing and writes no file: it returns,
    or raises an exception of a class, in the state it started from;
    it may print before it leaves through [sys.exit]. *)
Definition quiet {A} (m : M A) : Prop :=
  forall st r st',
    m st = (r, st') ->
    match r with
    | Raise (SystemExit _) => posts st' = posts st /\ disk st' = disk st
    | _ => st' = st
    end.

(** ** How a run may end *)

(** [str(e)] of an [OSError]. *)
Definition os_error_str (e : os_error) : string :=
  match e with
  | NotFound msg => msg
  | OtherOSError msg => msg
  end.

(** The success object [{"ok": true, "output": out}], printed with
    [indent=2]. *)
Definition success (out : string) : printed :=
  PrintJson (Some 2) (JObj [("ok", JBool true); ("output", JStr out)]).

(** The object of a semantic failure, printed with [indent=2]. *)
Definition semantic_failure (errors : json) : printed :=
  PrintJson (Some 2)
    (JObj [("ok", JBool false);
           ("error", JStr "One or more annotations could not be applied.");
           ("errors", errors)]).

(** What is printed before the script leaves with status [c], up to
    the request. *)
Definition early_exit (c : Z) (p : printed) : Prop :=
  (c = 0 /\ p = PrintText usage_text) \/
  (c = 1 /\ exists msg, p = failure (JStr msg)).

(** What is printed before the script leaves with status [c], once
    the service has answered. *)
Definition late_exit (c : Z) (p : printed) : Prop :=
  (c = 0 /\ exists out, p = success out) \/
  (c = 1 /\ exists msg, p = failure msg) \/
  (c = 2 /\ exists errs, p = semantic_failure (JArr errs)).


(** A computation that prints only to leave: it returns, or raises an
    exception of one of the classes [P], with standard output as it
    was; it leaves through [sys.exit(c)] having printed one [p] with
    [X c p]. *)
Definition tidy {A} (P : exn_class -> Prop) (X : Z -> printed -> Prop)
    (m : M A) : Prop :=
  forall st r st',
    m st = (r, st') ->
    match r with
    | Ret _ => stdout st' = stdout st
    | Raise (SystemExit c) => exists p, stdout st' = (stdout st ++ [p])%list /\ X c p
    | Raise (Exc c _) => P c /\ stdout st' = stdout st
    end.


(** The classes that may come out of reading a text file named by an
    argument. *)
Definition reading (c : exn_class) : Prop :=
  c = IndexError \/ c = FileNotFoundError \/ c = IOError \/ c = UnicodeDecodeError.

(** How the interpreter ends on an exception that reaches the top. *)
Definition outcome_of (e : exn) : outcome :=
  match e with
  | SystemExit c => Exited c
  | Exc c msg => Traceback c msg
  end.

(** ** More of the test double *)

Module Cases.

(** A world like [Mock.env], with [requests] installed or not, with a
    text file that is not UTF-8, one that may not be read, and an
    output directory that may not be written. *)
Definition env (installed : bool) (answer : result response) : Env := {|
  requests_installed := installed;
  json_loads := Mock.parse;
  b64decode_str := Mock.decode;
  abspath := fun p => "/work/" +:+ p;
  basename := fun p => p;
  read_text := fun p =>
    if String.eqb p "ann.json" then TextOk "[1]"
    else if String.eqb p "latin1.json" then
      TextNotUtf8 "'utf-8' codec can't decode byte 0xe9 in position 4: invalid continuation byte"
    else if String.eqb p "locked.json" then
      TextOSError (OtherOSError "[Errno 13] Permission denied: 'locked.json'")
    else TextOSError (NotFound "[Errno 2] No such file or directory");
  read_bytes := fun p =>
    if String.eqb p "/work/in.docx" then BytesOk Mock.docx
    else BytesOSError (NotFound "[Errno 2] No such file or directory");
  open_wb := fun p =>
    if String.eqb p "/work/ro.docx" then
      Some (OtherOSError "[Errno 13] Permission denied: '/work/ro.docx'")
    else None;
  post := fun _ => answer
|}.

Definition offline : Env := env true (Error "Connection refused").

Definition not_installed : Env := env false (Error "Connection refused").


(** 200 with a [file] field of one character, which is not base64. *)
Definition bad_base64_response : response :=
  {| status_code := 200; text := "{}";
     body_json := Some (JObj [("file", JStr "a")]) |}.


(** The disk with the input document on it. *)
Definition disk_with_input : gmap string (list Byte.byte) :=
  {[ "/work/in.docx" := Mock.docx ]}.


Definition bad_base64_world : Env := env true (Ok bad_base64_response).


(** The request of [in.docx out.docx '[]']. *)
Definition plain_request : request :=
  build_request offline Mock.the_job Mock.docx.

(** A command line with two [--author] and the job made of it. *)
Definition args_two_authors : list string :=
  ["in.docx"; "--author"; "first"; "--author"; "second"; "out.docx"; "[]"].

Definition job_second_author : job :=
  Mock.job_of
    {| annotations_json := None; service_url := Mock.default_url;
       author := "second"; initials := "AI"; positional := Mock.args |}
    (JArr []).

(** A command line with options between the positional arguments,
    one of them with a value that looks like an option. *)
Definition args_mixed : list string :=
  ["in.docx"; "--url"; "http://x/"; "out.docx"; "--author"; "--help"; "[]"].

Definition opts_mixed : opts :=
  {| annotations_json := None; service_url := "http://x/";
     author := "--help"; initials := "AI"; positional := Mock.args |}.

End Cases.

(** The options that take a value. *)
Definition value_flags : list string := ["--json"; "--url"; "--author"; "--initials"].

(** The words of a command line that are neither an option that takes
    a value nor the value of one; [skip] tells that the first word is
    a value. *)
Fixpoint plain_words (skip : bool) (args : list string) : list string :=
  match args with
  | [] => []
  | a :: rest =>
      if skip then plain_words false rest
      else if existsb (String.eqb a) value_flags then plain_words true rest
      else a :: plain_words false rest
  end.

(** The author and the initials a request carries. *)
Definition request_field (rq : request) (k : string) : option json :=
  match req_data rq with
  | JObj d => dict_get k d
  | _ => None
  end.

(** A word is not among given words: by comparison with each. *)
Ltac not_a_flag := unfold flags; simpl; intuition discriminate.

(** ** Tactics for runs *)

Ltac inv_pair :=
  match goal with
  | H : (_, _) = (_, _) |- _ => inversion H; subst; clear H
  end.

(** Case analysis on the innermost scrutinee of a hypothesis about a
    run, until every case is decided. *)
Ltac case_run H :=
  match type of H with
  | context [match ?x with _ => _ end] =>
      lazymatch x with
      | context [match _ with _ => _ end] => fail
      | _ => destruct x eqn:?
      end
  end.

Ltac unfold_run H :=
  unfold try_except, bind, bail, print, sys_exit, raise, ret in H.

Ltac run_cases H :=
  repeat (unfold_run H; simpl in H; try discriminate H;
          first [ progress (repeat inv_pair) | case_run H ]).

(** The tests of the loop on its current argument, one after the
    other, in a hypothesis about one turn of it. *)
Ltac case_flag H :=
  match type of H with
  | context [if String.eqb ?a ?f then _ else _] => destruct (String.eqb a f) eqn:?
  | context [if String.eqb ?a ?f || String.eqb ?a ?g then _ else _] =>
      destruct (String.eqb a f || String.eqb a g) eqn:?
  end.

(** ** Lemmas on the monad *)

Lemma quiet_ret {A} (a : A) : quiet (ret a).
Proof. intros st r st' H. inversion H; auto. Qed.

Lemma quiet_raise {A} (c : exn_class) (msg : string) : quiet (@raise A (Exc c msg)).
Proof. intros st r st' H. inversion H; auto. Qed.

Lemma quiet_bail {A} (msg : json) : quiet (@bail A msg).
Proof. intros st r st' H. inversion H; simpl; auto. Qed.

Lemma quiet_bind {A B} (m : M A) (k : A -> M B) :
  quiet m -> (forall a, quiet (k a)) -> quiet (bind m k).
Proof.
  intros Hm Hk st r st' H. unfold bind in H.
  destruct (m st) as [[a|e] st1] eqn:E1.
  - pose proof (Hm _ _ _ E1) as ->. exact (Hk a _ _ _ H).
  - inversion H; subst. exact (Hm _ _ _ E1).
Qed.

Lemma quiet_try {A} (m : M A) cs (h : exn -> M A) :
  quiet m -> (forall e, quiet (h e)) -> quiet (try_except m cs h).
Proof.
  intros Hm Hh st r st' H. unfold try_except in H.
  destruct (m st) as [[a|e] st1] eqn:E1.
  - inversion H; subst. exact (Hm _ _ _ E1).
  - pose proof (Hm _ _ _ E1) as Hq. destruct e as [code|c msg]; simpl in H.
    + inversion H; subst. exact Hq.
    + simpl in Hq. subst st1.
      destruct (existsb (subclass c) cs).
      * exact (Hh _ _ _ _ H).
      * inversion H; subst. reflexivity.
Qed.

Lemma quiet_exit_after_print {A} (p : printed) (code : Z) :
  quiet (print p ;;; @sys_exit A code).
Proof. intros st r st' H. inversion H; simpl; auto. Qed.

Create HintDb quiet.
#[export] Hint Resolve quiet_ret quiet_raise quiet_bail quiet_bind quiet_try
  quiet_exit_after_print : quiet.

Section Frames.

Context (E : Env).

Lemma quiet_next_arg (rest : list string) : quiet (next_arg rest).
Proof. destruct rest; simpl; auto with quiet. Qed.

Lemma quiet_raise_os {A} (e : os_error) : quiet (@raise_os A e).
Proof. destruct e; simpl; auto with quiet. Qed.

Lemma quiet_open_read_text (p : string) : quiet (open_read_text E p).
Proof.
  unfold open_read_text. destruct (read_text E p); auto using @quiet_raise_os with quiet.
Qed.

Lemma quiet_open_read_bytes (p : string) : quiet (open_read_bytes E p).
Proof.
  unfold open_read_bytes. destruct (read_bytes E p); auto using @quiet_raise_os with quiet.
Qed.

Lemma quiet_loads (s : string) : quiet (loads E s).
Proof. unfold loads. destruct (json_loads E s); auto with quiet. Qed.

Lemma quiet_import_requests : quiet (import_requests E).
Proof. unfold import_requests. destruct (requests_installed E); auto with quiet. Qed.

#[local] Hint Resolve quiet_next_arg quiet_open_read_text quiet_open_read_bytes
  quiet_loads quiet_import_requests : quiet.

(** The argument loop, by induction on the number of arguments left:
    an option takes two of them at once. *)
Lemma quiet_parse_loop_upto (n : nat) :
  forall args o, (length args <= n)%nat -> quiet (parse_loop E args o).
Proof.
  induction n as [|n IH]; intros [|arg rest] o Hlen; simpl in Hlen;
    try lia; try (simpl; auto with quiet).
  assert (Hrest : forall o', quiet (parse_loop E rest o')) by (intros; apply IH; lia).
  assert (Hafter : forall o',
             quiet (match rest with
                    | [] => ret o'
                    | _ :: rest' => parse_loop E rest' o'
                    end)).
  { intros o'. destruct rest as [|v rest']; auto with quiet.
    apply IH. simpl in Hlen. lia. }
  repeat match goal with
         | |- quiet (if ?b then _ else _) => destruct b
         end; auto 6 with quiet.
Qed.

Lemma quiet_parse_loop (args : list string) (o : opts) : quiet (parse_loop E args o).
Proof. apply (quiet_parse_loop_upto (length args)). lia. Qed.

Lemma quiet_check_args (o : opts) : quiet (check_args o).
Proof.
  unfold check_args.
  match goal with |- quiet (if ?b then _ else _) => destruct b end; auto with quiet.
Qed.

Lemma quiet_validate_annotations (a : string) : quiet (validate_annotations E a).
Proof.
  unfold validate_annotations. apply quiet_try; auto with quiet.
  apply quiet_bind; auto with quiet.
  intros v. destruct (negb (is_list v)); auto with quiet.
Qed.

#[local] Hint Resolve quiet_parse_loop quiet_check_args quiet_validate_annotations : quiet.

Lemma quiet_parse_args (args : list string) : quiet (parse_args E args).
Proof.
  unfold parse_args.
  apply quiet_bind; auto with quiet; intros _.
  apply quiet_bind; auto with quiet; intros o.
  apply quiet_bind; auto with quiet; intros [[i out] a].
  apply quiet_bind; auto with quiet.
Qed.

Lemma quiet_read_input (p : string) : quiet (read_input E p).
Proof. unfold read_input. auto with quiet. Qed.

End Frames.

(** ** What a step has established when it returns *)

Section Returns.

Context (E : Env).

Lemma truthy_Some (x : option string) :
  truthy x = true -> exists s, x = Some s /\ s <> EmptyString.
Proof.
  destruct x as [s|]; simpl; [|discriminate].
  intros H. exists s. split; [reflexivity|].
  intros ->. discriminate.
Qed.

Lemma check_args_ret (o : opts) st i out a st' :
  check_args o st = (Ret (i, out, a), st') ->
  st' = st /\
  nth_error (positional o) 0 = Some i /\ i <> EmptyString /\
  nth_error (positional o) 1 = Some out /\ out <> EmptyString /\
  chosen_annotations o = Some a /\ a <> EmptyString.
Proof.
  unfold check_args, item_or_none. intros H.
  destruct (truthy (nth_error (positional o) 0)) eqn:Hi;
    [|simpl in H; discriminate].
  destruct (truthy (nth_error (positional o) 1)) eqn:Hout;
    [|simpl in H; discriminate].
  destruct (truthy (chosen_annotations o)) eqn:Ha;
    [|simpl in H; discriminate].
  apply truthy_Some in Hi as (i' & Hi & ?).
  apply truthy_Some in Hout as (out' & Hout & ?).
  apply truthy_Some in Ha as (a' & Ha & ?).
  rewrite Hi, Hout, Ha in H. simpl in H. inversion H; subst. auto 10.
Qed.

Lemma validate_annotations_ret (a : string) st v st' :
  validate_annotations E a st = (Ret v, st') ->
  st' = st /\ json_loads E a = Ok v /\ is_list v = true.
Proof.
  unfold validate_annotations, try_except, bind, loads. intros H.
  destruct (json_loads E a) as [w|msg]; simpl in H; [|discriminate].
  destruct (is_list w) eqn:Hw; simpl in H; [|discriminate].
  inversion H; subst. auto.
Qed.

Lemma parse_args_ret (args : list string) st j st' :
  parse_args E args st = (Ret j, st') ->
  st' = st /\
  requests_installed E = true /\
  parse_loop E args init_opts st = (Ret (job_opts j), st) /\
  nth_error (positional (job_opts j)) 0 = Some (input_path j) /\
  nth_error (positional (job_opts j)) 1 = Some (output_path j) /\
  exists a,
    chosen_annotations (job_opts j) = Some a /\
    json_loads E a = Ok (annotations j) /\
    is_list (annotations j) = true.
Proof.
  unfold parse_args, bind at 1, import_requests. intros H.
  destruct (requests_installed E); simpl in H; [|discriminate].
  unfold bind at 1 in H.
  destruct (parse_loop E args init_opts st) as [[o|e] st1] eqn:Hloop; [|discriminate].
  pose proof (quiet_parse_loop E args init_opts _ _ _ Hloop) as Hq. simpl in Hq. subst st1.
  unfold bind at 1 in H.
  destruct (check_args o st) as [[[[i out] a]|e] st1] eqn:Hcheck; [|discriminate].
  apply check_args_ret in Hcheck as (-> & Hi & _ & Hout & _ & Ha & _).
  unfold bind at 1 in H.
  destruct (validate_annotations E a st) as [[v|e] st1] eqn:Hval; [|discriminate].
  apply validate_annotations_ret in Hval as (-> & Hv & Hl).
  inversion H; subst; simpl. eauto 10.
Qed.

Lemma read_input_ret (p : string) st b st' :
  read_input E p st = (Ret b, st') ->
  st' = st /\ read_bytes E (abspath E p) = BytesOk b.
Proof.
  unfold read_input, try_except, open_read_bytes. intros H.
  destruct (read_bytes E (abspath E p)) as [b'|[msg|msg]]; simpl in H;
    inversion H; subst; auto.
Qed.

(** The POST: one request leaves, whatever comes back. *)
Lemma send_request_sends (j : job) (b : list Byte.byte) st r st' :
  send_request E j b st = (r, st') ->
  posts st' = (posts st ++ [build_request E j b])%list /\
  disk st' = disk st /\
  match r with
  | Ret resp => stdout st' = stdout st /\ post E (build_request E j b) = Ok resp
  | Raise e => e = SystemExit 1
  end.
Proof.
  unfold send_request, try_except, requests_post. intros H.
  destruct (post E (build_request E j b)) as [resp|msg]; simpl in H;
    inversion H; subst; simpl; auto.
Qed.

(** A run that reaches the answer of the service has printed nothing,
    written nothing, and sent the one request built from its arguments
    and the bytes of the input file. *)
Lemma request_phase_ret (args : list string) st j resp st' :
  request_phase E args st = (Ret (j, resp), st') ->
  parse_args E args st = (Ret j, st) /\
  exists b,
    read_bytes E (abspath E (input_path j)) = BytesOk b /\
    post E (build_request E j b) = Ok resp /\
    st' = {| stdout := stdout st;
             posts := (posts st ++ [build_request E j b])%list;
             disk := disk st |}.
Proof.
  unfold request_phase, bind at 1. intros H.
  destruct (parse_args E args st) as [[j'|e] st1] eqn:Hparse; [|discriminate].
  pose proof (parse_args_ret _ _ _ _ Hparse) as (-> & _).
  unfold bind at 1 in H.
  destruct (read_input E (input_path j') st) as [[b|e] st1] eqn:Hread; [|discriminate].
  apply read_input_ret in Hread as (-> & Hb).
  unfold bind at 1 in H.
  destruct (send_request E j' b st) as [[resp'|e] st1] eqn:Hsend; [|discriminate].
  pose proof (send_request_sends _ _ _ _ _ Hsend) as (Hp & Hd & Hout & Hpost).
  inversion H; subst. split; [reflexivity|].
  exists b. repeat split; auto.
  destruct st' as [so sp sd]; simpl in *. congruence.
Qed.

(** The other way round: when the arguments are in order, the input
    file can be read and the service answers, the run reaches the
    answer. *)
Lemma request_phase_reaches (args : list string) st j b resp :
  parse_args E args st = (Ret j, st) ->
  read_bytes E (abspath E (input_path j)) = BytesOk b ->
  post E (build_request E j b) = Ok resp ->
  request_phase E args st =
    (Ret (j, resp),
     {| stdout := stdout st;
        posts := (posts st ++ [build_request E j b])%list;
        disk := disk st |}).
Proof.
  intros Hparse Hb Hpost.
  unfold request_phase, bind at 1. rewrite Hparse.
  unfold bind at 1, read_input, try_except, open_read_bytes. rewrite Hb. simpl.
  unfold bind, send_request, try_except, requests_post. rewrite Hpost. reflexivity.
Qed.

(** The handling of the answer sends nothing. *)
Lemma handle_response_posts (out : string) (resp : response) st r st' :
  handle_response E out resp st = (r, st') -> posts st' = posts st.
Proof.
  unfold handle_response, resp_json, py_subscript, py_get, b64decode,
    open_write_bytes, write_bytes, raise_os.
  intros H. run_cases H; reflexivity.
Qed.

End Returns.

(** ** The argument loop *)

(** Induction for a loop that takes one or two arguments at a time. *)
Lemma list_ind2 (P : list string -> Prop) :
  P [] ->
  (forall a l, P l -> (forall b l', l = b :: l' -> P l') -> P (a :: l)) ->
  forall l, P l.
Proof.
  intros Hnil Hcons l.
  enough (P l /\ (forall b l', l = b :: l' -> P l')) by tauto.
  induction l as [|a l [IH1 IH2]].
  - split; [exact Hnil | intros; discriminate].
  - split; [apply Hcons; assumption |].
    intros b l' Heq. inversion Heq; subst. exact IH1.
Qed.

Section Loop.

Context (E : Env).

(** What is left after a turn is a part of what was there. *)
Lemma turn_rest o args o' rest :
  turn E o args o' rest -> exists taken, args = (taken ++ rest)%list /\ taken <> [].
Proof.
  intros [p c r _|u r|a r|x r|arg r _].
  - exists ["--json"; p]. split; [reflexivity | discriminate].
  - exists ["--url"; u]. split; [reflexivity | discriminate].
  - exists ["--author"; a]. split; [reflexivity | discriminate].
  - exists ["--initials"; x]. split; [reflexivity | discriminate].
  - exists [arg]. split; [reflexivity | discriminate].
Qed.

Lemma parse_loop_turn (a : string) (l : list string) o st o1 st1 :
  parse_loop E (a :: l) o st = (Ret o1, st1) ->
  exists o' rest, turn E o (a :: l) o' rest /\ parse_loop E rest o' st = (Ret o1, st1).
Proof.
  intros H. simpl in H.
  repeat (case_flag H; simpl in H); try discriminate H.
  all: repeat match goal with
         | Hf : String.eqb _ _ = true |- _ => apply String.eqb_eq in Hf; subst
         end.
  5: { exists (with_positional o a), l. split; [|exact H].
       constructor. unfold flags. simpl.
       match goal with
       | Hh : _ || _ = false |- _ => apply orb_false_elim in Hh as [? ?]
       end.
       repeat match goal with
         | Hf : String.eqb _ _ = false |- _ => apply String.eqb_neq in Hf
         end.
       intuition congruence. }
  all: destruct l as [|v l']; unfold_run H; simpl in H; try discriminate H.
  - unfold open_read_text in H.
    destruct (read_text E v) as [c|[m|m]|m] eqn:Hread; simpl in H; try discriminate H.
    eexists _, l'. split; [constructor; eassumption | exact H].
  - eexists _, l'. split; [constructor | exact H].
  - eexists _, l'. split; [constructor | exact H].
  - eexists _, l'. split; [constructor | exact H].
Qed.

(** A turn of the relation is a turn of the loop. *)
Lemma turn_parse_loop o args o' rest st :
  turn E o args o' rest -> parse_loop E args o st = parse_loop E rest o' st.
Proof.
  intros [p c r Hread|u r|a r|x r|arg r Hflag]; simpl.
  - unfold try_except, bind, open_read_text. simpl. rewrite Hread. simpl.
    destruct r; reflexivity.
  - destruct r; reflexivity.
  - destruct r; reflexivity.
  - destruct r; reflexivity.
  - unfold flags in Hflag. simpl in Hflag.
    destruct (String.eqb_spec arg "--json"); [intuition congruence|].
    destruct (String.eqb_spec arg "--url"); [intuition congruence|].
    destruct (String.eqb_spec arg "--author"); [intuition congruence|].
    destruct (String.eqb_spec arg "--initials"); [intuition congruence|].
    destruct (String.eqb_spec arg "--help"); [intuition congruence|].
    destruct (String.eqb_spec arg "-h"); [intuition congruence|].
    reflexivity.
Qed.

(** The loop returns exactly along the turns of the relation. *)
Lemma parse_loop_parses (args : list string) :
  forall o st o1 st1,
    parse_loop E args o st = (Ret o1, st1) -> parses E o args o1.
Proof.
  induction args as [|a l IH1 IH2] using list_ind2; intros o st o1 st1 H.
  - simpl in H. inversion H; subst. constructor.
  - destruct (parse_loop_turn _ _ _ _ _ _ H) as (o' & rest & Hturn & Hrest).
    apply parses_turn with o' rest; [exact Hturn|].
    inversion Hturn; subst; try (eapply IH1; eassumption);
      eapply IH2; try reflexivity; eassumption.
Qed.

Lemma parses_parse_loop o args o1 st :
  parses E o args o1 -> parse_loop E args o st = (Ret o1, st).
Proof.
  induction 1 as [o|o args o' rest o1 Hturn _ IH].
  - reflexivity.
  - rewrite (turn_parse_loop _ _ _ _ st Hturn). exact IH.
Qed.

(** A prefix of the arguments that the loop gets through is gone
    through in the same way when more arguments follow. *)
Lemma parses_app o pre o1 rest o2 :
  parses E o pre o1 -> parses E o1 rest o2 -> parses E o (pre ++ rest) o2.
Proof.
  induction 1 as [o|o args o' left o1 Hturn _ IH]; intros Hrest.
  - exact Hrest.
  - apply parses_turn with o' (left ++ rest)%list; [|exact (IH Hrest)].
    destruct Hturn; simpl; constructor; assumption.
Qed.

Lemma parse_loop_app (pre rest : list string) o st o1 st1 :
  parse_loop E pre o st = (Ret o1, st1) ->
  parse_loop E (pre ++ rest) o st = parse_loop E rest o1 st.
Proof.
  intros H. apply parse_loop_parses in H.
  induction H as [o|o args o' left o1 Hturn _ IH].
  - reflexivity.
  - rewrite <- IH.
    apply turn_parse_loop. destruct Hturn; simpl; constructor; assumption.
Qed.

(** Only [--json] assigns the annotations. *)
Lemma parses_keeps_annotations o args o1 :
  parses E o args o1 -> ~ In "--json" args ->
  annotations_json o1 = annotations_json o.
Proof.
  induction 1 as [o|o args o' rest o1 Hturn _ IH]; intros Hno; [reflexivity|].
  destruct (turn_rest _ _ _ _ Hturn) as (taken & -> & _).
  rewrite IH by (intros Hin; apply Hno, in_or_app; auto).
  destruct Hturn; simpl in *; tauto || reflexivity.
Qed.

(** Once a [--json] file is read the annotations are those of a file. *)
Lemma parses_annotations_some o args o1 :
  parses E o args o1 -> annotations_json o <> None -> annotations_json o1 <> None.
Proof.
  induction 1 as [o|o args o' rest o1 Hturn _ IH]; intros Hsome; [exact Hsome|].
  apply IH. destruct Hturn; simpl; auto; discriminate.
Qed.

(** The service URL is the one the loop started with or the value of
    a [--url]. *)
Lemma parses_service_url o args o1 :
  parses E o args o1 ->
  service_url o1 = service_url o \/
  exists pre rest, args = (pre ++ "--url" :: service_url o1 :: rest)%list.
Proof.
  induction 1 as [o|o args o' rest o1 Hturn _ IH]; [left; reflexivity|].
  destruct IH as [IH|(pre & post & ->)].
  - rewrite IH. destruct Hturn; simpl; auto.
    right. exists [], rest. reflexivity.
  - right. destruct (turn_rest _ _ _ _ Hturn) as (taken & -> & _).
    exists (taken ++ pre)%list, post. rewrite <- app_assoc. reflexivity.
Qed.

End Loop.

(** ** Whole runs *)

Section Runs.

Context (E : Env).

(** Three plain words, none of them empty, the third a JSON array:
    the arguments are in order. *)
Lemma parse_args_plain (i out a : string) (items : list json) st :
  requests_installed E = true ->
  ~ In i flags -> ~ In out flags -> ~ In a flags ->
  i <> EmptyString -> out <> EmptyString -> a <> EmptyString ->
  json_loads E a = Ok (JArr items) ->
  parse_args E [i; out; a] st =
    (Ret {| job_opts := with_positional
                          (with_positional (with_positional init_opts i) out) a;
            input_path := i; output_path := out; annotations := JArr items |},
     st).
Proof.
  intros Hreq Hi Hout Ha Hi' Hout' Ha' Hloads.
  assert (Hloop :
    parse_loop E [i; out; a] init_opts st =
      (Ret (with_positional (with_positional (with_positional init_opts i) out) a), st)).
  { apply parses_parse_loop.
    repeat (eapply parses_turn; [apply turn_positional; assumption|]).
    apply parses_done. }
  unfold parse_args, bind, import_requests. rewrite Hreq.
  cbv beta iota delta [ret]. rewrite Hloop.
  unfold check_args, item_or_none, chosen_annotations, validate_annotations,
    try_except, bind, loads. simpl.
  apply String.eqb_neq in Hi', Hout', Ha'. rewrite Hi', Hout', Ha'. simpl.
  rewrite Hloads. reflexivity.
Qed.

(** A run that stops before the answer of the service has written no
    file, and has sent at most the one request built from its
    arguments. *)
Lemma request_phase_raise (args : list string) st e st1 :
  request_phase E args st = (Raise e, st1) ->
  disk st1 = disk st /\
  (posts st1 = posts st \/
   exists j b,
     parse_args E args st = (Ret j, st) /\
     read_bytes E (abspath E (input_path j)) = BytesOk b /\
     posts st1 = (posts st ++ [build_request E j b])%list).
Proof.
  unfold request_phase, bind at 1. intros H.
  destruct (parse_args E args st) as [[j|e0] st2] eqn:Hparse.
  - pose proof (quiet_parse_args E args _ _ _ Hparse) as Hq. simpl in Hq. subst st2.
    unfold bind at 1 in H.
    destruct (read_input E (input_path j) st) as [[b|e1] st2] eqn:Hread.
    + apply read_input_ret in Hread as (-> & Hb).
      unfold bind at 1 in H.
      destruct (send_request E j b st) as [[resp|e2] st2] eqn:Hsend; [discriminate|].
      inversion H; subst.
      destruct (send_request_sends _ _ _ _ _ _ Hsend) as (Hp & Hd & _).
      split; [exact Hd|]. right. exists j, b. auto.
    + inversion H; subst.
      pose proof (quiet_read_input E _ _ _ _ Hread) as Hq.
      destruct e as [code|c msg]; simpl in Hq; [tauto | subst; auto].
  - inversion H; subst.
    pose proof (quiet_parse_args E args _ _ _ Hparse) as Hq.
    destruct e as [code|c msg]; simpl in Hq; [tauto | subst; auto].
Qed.

(** The requests of a whole run. *)
Lemma run_posts (args : list string) d r st' :
  run E args (start d) = (r, st') ->
  posts st' = [] \/
  exists j b,
    parse_args E args (start d) = (Ret j, start d) /\
    read_bytes E (abspath E (input_path j)) = BytesOk b /\
    posts st' = [build_request E j b].
Proof.
  unfold run, main, bind. intros H.
  destruct (request_phase E args (start d)) as [[[j resp]|e] st1] eqn:Hreq.
  - apply request_phase_ret in Hreq as (Hparse & b & Hb & _ & ->).
    simpl in H.
    match type of H with
    | context [handle_response E ?out ?rs ?s] =>
        destruct (handle_response E out rs s) as [rr st2] eqn:Hh
    end.
    apply handle_response_posts in Hh. simpl in Hh.
    right. exists j, b. repeat split; auto.
    destruct rr as [[]|[code|c msg]]; inversion H; subst; exact Hh.
  - apply request_phase_raise in Hreq as (_ & Hp). simpl in Hp.
    destruct e as [code|c msg]; inversion H; subst; exact Hp.
Qed.

(** A run whose arguments are in order, whose input file can be read
    and whose request is answered goes on with the answer. *)
Lemma run_answered (args : list string) d j b resp :
  parse_args E args (start d) = (Ret j, start d) ->
  read_bytes E (abspath E (input_path j)) = BytesOk b ->
  post E (build_request E j b) = Ok resp ->
  main E args (start d) =
    handle_response E (output_path j) resp
      {| stdout := []; posts := [build_request E j b]; disk := d |}.
Proof.
  intros Hparse Hb Hpost. unfold main, bind.
  rewrite (request_phase_reaches E args _ j b resp Hparse Hb Hpost). reflexivity.
Qed.

(** The handling of the answer touches no file but the output file,
    and this one only when the status is 200 and the body is JSON: it
    is then created or emptied, and filled on the way to status 0. *)
Lemma handle_response_disk (out : string) (resp : response) st r st' :
  handle_response E out resp st = (r, st') ->
  disk st' = disk st \/
  (status_code resp = 200 /\
   exists decoded,
     disk st' = <[abspath E out := decoded]> (disk st) /\
     (r = Raise (SystemExit 0) \/ decoded = [])).
Proof.
  unfold handle_response, resp_json, py_subscript, py_get, b64decode,
    open_write_bytes, write_bytes, raise_os.
  intros H.
  destruct (status_code resp =? 200) eqn:Hstatus.
  - apply Z.eqb_eq in Hstatus.
    run_cases H; auto;
      right; (split; [exact Hstatus|]);
      rewrite ?lookup_insert_eq, ?insert_insert_eq; simpl; eauto.
  - run_cases H; auto.
Qed.

(** A whole run writes at most one file, the output file: it holds the
    decoded bytes of a run that ends with status 0, and nothing
    otherwise. *)
Lemma run_writes_only_output (args : list string) d r st' :
  run E args (start d) = (r, st') ->
  disk st' = d \/
  exists j decoded,
    parse_args E args (start d) = (Ret j, start d) /\
    disk st' = <[abspath E (output_path j) := decoded]> d /\
    (r = Exited 0 \/ decoded = []).
Proof.
  unfold run, main, bind. intros H.
  destruct (request_phase E args (start d)) as [[[j resp]|e] st1] eqn:Hreq.
  - apply request_phase_ret in Hreq as (Hparse & b & _ & _ & ->).
    simpl in H.
    match type of H with
    | context [handle_response E ?out ?rs ?s] =>
        destruct (handle_response E out rs s) as [rr st2] eqn:Hh
    end.
    assert (Hst : st2 = st') by (destruct rr as [[]|[code|c msg]]; congruence).
    apply handle_response_disk in Hh. rewrite Hst in Hh. simpl in Hh.
    destruct Hh as [Hd|(_ & decoded & Hd & Hr)]; [left; exact Hd|].
    right. exists j, decoded. split; [exact Hparse|]. split; [exact Hd|].
    destruct Hr as [->|Hr]; [left; congruence | right; exact Hr].
  - apply request_phase_raise in Hreq as (Hd & _). simpl in Hd.
    left. destruct e as [code|c msg]; congruence.
Qed.

End Runs.

(** ** The properties of the specification *)

(** C3. For valid arguments (they parse, the annotations are a JSON
    array, the input file can be read, the output file can be opened
    for writing) and a 200 answer whose JSON body has a valid base64
    [file] field, the run writes exactly the decoded bytes to the
    output path, reports success and exits with status 0. *)
Theorem success_writes_decoded_bytes
    (E : Env) (args : list string) d j b resp fields s decoded :
  parse_args E args (start d) = (Ret j, start d) ->
  read_bytes E (abspath E (input_path j)) = BytesOk b ->
  post E (build_request E j b) = Ok resp ->
  status_code resp = 200 ->
  body_json resp = Some (JObj fields) ->
  dict_get "file" fields = Some (JStr s) ->
  b64decode_str E s = Ok decoded ->
  open_wb E (abspath E (output_path j)) = None ->
  exists st',
    run E args (start d) = (Exited 0, st') /\
    disk st' = <[abspath E (output_path j) := decoded]> d /\
    disk st' !! abspath E (output_path j) = Some decoded /\
    stdout st' =
      [PrintJson (Some 2)
         (JObj [("ok", JBool true);
                ("output", JStr (abspath E (output_path j)))])].
Proof.
  intros Hparse Hb Hpost Hstatus Hbody Hfile Hdec Hopen.
  unfold run. rewrite (run_answered E args d j b resp Hparse Hb Hpost).
  unfold handle_response, try_except, bind, resp_json, open_write_bytes,
    py_subscript, b64decode, write_bytes, print, sys_exit, raise, ret.
  rewrite Hstatus, Hbody, Hopen. simpl. rewrite Hfile, Hdec. simpl.
  eexists. split; [reflexivity|]. simpl.
  rewrite lookup_insert_eq, insert_insert_eq. simpl.
  split; [reflexivity|]. split; [apply lookup_insert_eq | reflexivity].
Qed.

(** C4. For a 422 answer whose JSON body is an object with an
    [errors] list, the run exits with status 2, writes no file, and
    prints the object that holds this list unchanged. *)
Theorem semantic_failure_exits_2
    (E : Env) (args : list string) d j b resp fields errs :
  parse_args E args (start d) = (Ret j, start d) ->
  read_bytes E (abspath E (input_path j)) = BytesOk b ->
  post E (build_request E j b) = Ok resp ->
  status_code resp = 422 ->
  body_json resp = Some (JObj fields) ->
  dict_get "errors" fields = Some (JArr errs) ->
  exists st',
    run E args (start d) = (Exited 2, st') /\
    disk st' = d /\
    stdout st' =
      [PrintJson (Some 2)
         (JObj [("ok", JBool false);
                ("error", JStr "One or more annotations could not be applied.");
                ("errors", JArr errs)])].
Proof.
  intros Hparse Hb Hpost Hstatus Hbody Herrs.
  unfold run. rewrite (run_answered E args d j b resp Hparse Hb Hpost).
  unfold handle_response, try_except, bind, resp_json, py_subscript,
    print, sys_exit, raise, ret.
  rewrite Hstatus, Hbody. simpl. rewrite Herrs. simpl.
  eexists. split; [reflexivity|]. simpl. auto.
Qed.

(** C5. When the annotations text is not valid JSON, or is JSON whose
    top-level value is not an array, the run exits with status 1,
    sends no request and writes no file; it prints one failure
    object. *)
Theorem malformed_annotations_exit_1
    (E : Env) (args : list string) d o st1 s :
  parse_loop E args init_opts (start d) = (Ret o, st1) ->
  chosen_annotations o = Some s ->
  (exists msg, json_loads E s = Error msg) \/
  (exists v, json_loads E s = Ok v /\ is_list v = false) ->
  exists st' msg,
    run E args (start d) = (Exited 1, st') /\
    posts st' = [] /\
    disk st' = d /\
    stdout st' = [failure (JStr msg)].
Proof.
  intros Hloop Hs Hbad.
  pose proof (quiet_parse_loop E args init_opts _ _ _ Hloop) as Hq.
  simpl in Hq. subst st1.
  unfold run, main, request_phase, parse_args, bind, import_requests.
  destruct (requests_installed E); simpl.
  - rewrite Hloop.
    unfold check_args. rewrite Hs.
    destruct (negb (truthy (item_or_none (positional o) 0))
              || negb (truthy (item_or_none (positional o) 1))
              || negb (truthy (Some s))); simpl.
    + eexists _, _. repeat split; reflexivity.
    + unfold validate_annotations, try_except, bind, loads.
      destruct Hbad as [(msg & ->)|(v & -> & Hv)]; simpl.
      * eexists _, _. repeat split; reflexivity.
      * rewrite Hv. simpl. eexists _, _. repeat split; reflexivity.
  - eexists _, _. repeat split; reflexivity.
Qed.

(** C10. An annotations text that is there but empty (an empty third
    positional argument, or a [--json] file without content), like an
    empty input or output path, is taken as missing: the run prints
    the usage error, not a JSON parse error, and exits with status 1
    before any request. *)
Theorem empty_argument_is_usage_error
    (E : Env) (args : list string) d o st1 :
  requests_installed E = true ->
  parse_loop E args init_opts (start d) = (Ret o, st1) ->
  annotations_json o = Some EmptyString \/
  (annotations_json o = None /\ nth_error (positional o) 2 = Some EmptyString) \/
  nth_error (positional o) 0 = Some EmptyString \/
  nth_error (positional o) 1 = Some EmptyString ->
  exists st',
    run E args (start d) = (Exited 1, st') /\
    stdout st' = [failure (JStr usage_error)] /\
    posts st' = [] /\
    disk st' = d.
Proof.
  intros Hreq Hloop Hempty.
  pose proof (quiet_parse_loop E args init_opts _ _ _ Hloop) as Hq.
  simpl in Hq. subst st1.
  unfold run, main, request_phase, parse_args, bind, import_requests.
  rewrite Hreq. simpl. rewrite Hloop.
  unfold check_args, item_or_none.
  assert (Hfalsy :
    negb (truthy (nth_error (positional o) 0))
    || negb (truthy (nth_error (positional o) 1))
    || negb (truthy (chosen_annotations o)) = true).
  { unfold chosen_annotations.
    destruct Hempty as [H|[[H1 H2]|[H|H]]].
    - rewrite H. simpl. rewrite !orb_true_r. reflexivity.
    - rewrite H1, H2.
      destruct (2 <? length (positional o))%nat; simpl;
        rewrite !orb_true_r; reflexivity.
    - rewrite H. reflexivity.
    - rewrite H. simpl. rewrite orb_true_r. reflexivity. }
  rewrite Hfalsy. simpl.
  eexists. repeat split; reflexivity.
Qed.

(** C6. When the input file cannot be read, the run fails with a read
    error and status 1 and sends nothing; and whatever the run, a
    request is sent only with the bytes read from the input file. *)
Theorem unreadable_input_sends_nothing
    (E : Env) (args : list string) d r st' :
  run E args (start d) = (r, st') ->
  (forall j e,
      parse_args E args (start d) = (Ret j, start d) ->
      read_bytes E (abspath E (input_path j)) = BytesOSError e ->
      exists msg,
        r = Exited 1 /\
        stdout st' = [failure (JStr ("Cannot read input file: " +:+ msg))] /\
        posts st' = [] /\
        disk st' = d) /\
  (posts st' <> [] ->
   exists j b,
     parse_args E args (start d) = (Ret j, start d) /\
     read_bytes E (abspath E (input_path j)) = BytesOk b /\
     posts st' = [build_request E j b] /\
     req_file_bytes (build_request E j b) = b).
Proof.
  intros Hrun. split.
  - intros j e Hparse Hread.
    unfold run, main, request_phase, bind in Hrun. rewrite Hparse in Hrun.
    unfold read_input, try_except, open_read_bytes in Hrun.
    rewrite Hread in Hrun.
    destruct e as [msg|msg]; simpl in Hrun; inversion Hrun; subst; simpl;
      exists msg; repeat split; reflexivity.
  - intros Hsent.
    destruct (run_posts E args d r st' Hrun) as [Hnone|(j & b & Hparse & Hb & Hp)];
      [contradiction|].
    exists j, b. repeat split; assumption.
Qed.

(** What [rstrip("/")] gives: the text without the slashes at its
    end, and all of them are gone. *)
Lemma rstrip_slash_spec (s : string) :
  (exists n, s = rstrip_slash s +:+ slashes n) /\
  ends_with_slash (rstrip_slash s) = false.
Proof.
  induction s as [|c s' [[n Hn] Hend]]; simpl.
  - split; [exists O; reflexivity | reflexivity].
  - destruct (rstrip_slash s') as [|a r] eqn:Hr.
    + change (s' = slashes n) in Hn.
      destruct (Ascii.eqb_spec c "/") as [->|Hc].
      * split; [exists (S n); change (String "/" s' = String "/" (slashes n)); congruence
               | reflexivity].
      * split; [exists n; change (String c s' = String c (slashes n)); congruence |].
        simpl. apply Ascii.eqb_neq. exact Hc.
    + split; [|exact Hend].
      exists n. change (String c s' = String c (String a r +:+ slashes n)). congruence.
Qed.

(** C8. The request goes to the service URL (the default one or the
    value of a [--url]) without the slashes at its end, followed by
    [/api/annotate]: no slash is doubled where the two are joined. *)
Theorem request_url_has_no_double_slash
    (E : Env) (args : list string) d r st' rq :
  run E args (start d) = (r, st') ->
  In rq (posts st') ->
  exists o,
    parse_loop E args init_opts (start d) = (Ret o, start d) /\
    (service_url o = service_url init_opts \/
     exists pre rest, args = (pre ++ "--url" :: service_url o :: rest)%list) /\
    req_url rq = rstrip_slash (service_url o) +:+ "/api/annotate" /\
    (exists n, service_url o = rstrip_slash (service_url o) +:+ slashes n) /\
    ends_with_slash (rstrip_slash (service_url o)) = false.
Proof.
  intros Hrun Hin.
  destruct (run_posts E args d r st' Hrun) as [Hnone|(j & b & Hparse & _ & Hp)].
  - rewrite Hnone in Hin. destruct Hin.
  - rewrite Hp in Hin. destruct Hin as [<-|[]].
    apply parse_args_ret in Hparse as (_ & _ & Hloop & _).
    exists (job_opts j). split; [exact Hloop|].
    split; [exact (parses_service_url E _ _ _ (parse_loop_parses E _ _ _ _ _ Hloop))|].
    split; [reflexivity|]. apply rstrip_slash_spec.
Qed.

(** C9. The annotations a run sends are read from one text.  When a
    [--json] file is given, before or after the positional arguments,
    this text is the content of the file, whatever the third positional
    argument is; the third positional argument is the text only when
    no [--json] is given. *)
Theorem json_file_wins
    (E : Env) (args : list string) d r st' rq :
  run E args (start d) = (r, st') ->
  In rq (posts st') ->
  exists o a anns,
    parse_loop E args init_opts (start d) = (Ret o, start d) /\
    json_loads E a = Ok anns /\
    request_annotations rq = Some anns /\
    (forall pre path rest o1 st1,
        args = (pre ++ "--json" :: path :: rest)%list ->
        parse_loop E pre init_opts (start d) = (Ret o1, st1) ->
        ~ In "--json" rest ->
        read_text E path = TextOk a) /\
    (~ In "--json" args -> nth_error (positional o) 2 = Some a).
Proof.
  intros Hrun Hin.
  destruct (run_posts E args d r st' Hrun) as [Hnone|(j & b & Hparse & _ & Hp)].
  { rewrite Hnone in Hin. destruct Hin. }
  rewrite Hp in Hin. destruct Hin as [<-|[]].
  apply parse_args_ret in Hparse as (_ & _ & Hloop & _ & _ & a & Ha & Hloads & _).
  exists (job_opts j), a, (annotations j).
  split; [exact Hloop|]. split; [exact Hloads|]. split; [reflexivity|]. split.
  - intros pre path rest o1 st1 -> Hpre Hrest.
    rewrite (parse_loop_app E pre _ _ _ _ _ Hpre) in Hloop.
    apply parse_loop_turn in Hloop as (o' & left & Hturn & Hleft).
    inversion Hturn as [p c l Hread| | | |arg l Hflag]; subst.
    + apply parse_loop_parses in Hleft.
      apply parses_keeps_annotations in Hleft; [|exact Hrest].
      unfold chosen_annotations in Ha. rewrite Hleft in Ha. simpl in Ha.
      congruence.
    + exfalso. apply Hflag. left. reflexivity.
  - intros Hno.
    apply parse_loop_parses in Hloop.
    apply parses_keeps_annotations in Hloop; [|exact Hno].
    unfold chosen_annotations in Ha. rewrite Hloop in Ha. simpl in Ha.
    destruct (2 <? length (positional (job_opts j)))%nat; [exact Ha | discriminate].
Qed.

(** [s[:n]] has at most [n] characters. *)
Lemma str_slice_to_length (n : nat) (s : string) :
  (String.length (str_slice_to n s) <= n)%nat.
Proof.
  revert s. induction n as [|n IH]; intros [|c s].
  - apply Nat.le_refl.
  - apply Nat.le_refl.
  - apply Nat.le_0_l.
  - change (str_slice_to (S n) (String c s)) with (String c (str_slice_to n s)).
    simpl. specialize (IH s). lia.
Qed.

(** C1 (the code breaks it). A 200 answer whose JSON body is an
    object without a [file] field makes the run fail with status 1,
    yet the output file has been opened for writing before the field
    is looked up: an empty file is left at the output path, in place
    of whatever was there. *)
Theorem missing_file_field_leaves_empty_output
    (E : Env) (args : list string) d j b resp fields :
  parse_args E args (start d) = (Ret j, start d) ->
  read_bytes E (abspath E (input_path j)) = BytesOk b ->
  post E (build_request E j b) = Ok resp ->
  status_code resp = 200 ->
  body_json resp = Some (JObj fields) ->
  dict_get "file" fields = None ->
  open_wb E (abspath E (output_path j)) = None ->
  exists st',
    run E args (start d) = (Exited 1, st') /\
    stdout st' = [failure (JStr "Unexpected response from service: 'file'")] /\
    disk st' = <[abspath E (output_path j) := []]> d /\
    disk st' !! abspath E (output_path j) = Some [].
Proof.
  intros Hparse Hb Hpost Hstatus Hbody Hfile Hopen.
  unfold run. rewrite (run_answered E args d j b resp Hparse Hb Hpost).
  unfold handle_response, try_except, bind, resp_json, open_write_bytes,
    py_subscript, raise, ret.
  rewrite Hstatus, Hbody, Hopen. simpl. rewrite Hfile. simpl.
  eexists. split; [reflexivity|]. simpl.
  split; [reflexivity|]. split; [reflexivity | apply lookup_insert_eq].
Qed.

(** C2 (the code breaks it). An answer whose JSON body is not an
    object ends the run with an exception nobody catches and nothing
    on standard output: [AttributeError] from [err.get] when the status
    is not 200, [TypeError] from [envelope["file"]] when it is 200 (the
    output file is then left empty). *)
Theorem non_object_body_is_uncaught
    (E : Env) (args : list string) d j b resp v :
  parse_args E args (start d) = (Ret j, start d) ->
  read_bytes E (abspath E (input_path j)) = BytesOk b ->
  post E (build_request E j b) = Ok resp ->
  body_json resp = Some v ->
  is_dict v = false ->
  open_wb E (abspath E (output_path j)) = None ->
  exists c msg st',
    run E args (start d) = (Traceback c msg, st') /\
    stdout st' = [] /\
    (if status_code resp =? 200
     then c = TypeError /\ disk st' = <[abspath E (output_path j) := []]> d
     else c = AttributeError /\ disk st' = d).
Proof.
  intros Hparse Hb Hpost Hbody Hv Hopen.
  unfold run. rewrite (run_answered E args d j b resp Hparse Hb Hpost).
  unfold handle_response, try_except, bind, resp_json, open_write_bytes,
    py_subscript, py_get, raise, ret.
  rewrite Hbody, Hopen.
  destruct (status_code resp =? 200); simpl.
  - destruct v; try discriminate Hv; simpl;
      eexists _, _, _; (split; [reflexivity|]); simpl; auto.
  - rewrite Hv, andb_false_r. simpl.
    destruct v; try discriminate Hv; simpl;
      eexists _, _, _; (split; [reflexivity|]); simpl; auto.
Qed.

(** C7 (the code breaks it). What the run does with an answer whose
    status is not 200 and that is not the 422 answer with an [errors]
    list: a body that is not JSON gives status 1 and the first 500
    characters of the text; a JSON object gives status 1 and its
    [error] field, or the first 500 characters of the text when it has
    none; any other JSON value ends the run with an uncaught
    [AttributeError] and nothing printed. *)
Theorem non_200_fallback_cases
    (E : Env) (args : list string) d j b resp :
  parse_args E args (start d) = (Ret j, start d) ->
  read_bytes E (abspath E (input_path j)) = BytesOk b ->
  post E (build_request E j b) = Ok resp ->
  status_code resp <> 200 ->
  ~ (status_code resp = 422 /\
     exists fields errs,
       body_json resp = Some (JObj fields) /\
       dict_get "errors" fields = Some (JArr errs)) ->
  exists st',
    disk st' = d /\
    (String.length (str_slice_to 500 (text resp)) <= 500)%nat /\
    match body_json resp with
    | None =>
        run E args (start d) = (Exited 1, st') /\
        stdout st' = [failure (JStr (str_slice_to 500 (text resp)))]
    | Some (JObj fields) =>
        run E args (start d) = (Exited 1, st') /\
        stdout st' =
          [failure (default (JStr (str_slice_to 500 (text resp)))
                      (dict_get "error" fields))]
    | Some _ =>
        exists msg,
          run E args (start d) = (Traceback AttributeError msg, st') /\
          stdout st' = []
    end.
Proof.
  intros Hparse Hb Hpost Hstatus Hnot.
  unfold run. rewrite (run_answered E args d j b resp Hparse Hb Hpost).
  unfold handle_response, try_except, bind, resp_json, py_subscript, py_get,
    bail, print, sys_exit, raise, ret.
  apply Z.eqb_neq in Hstatus. rewrite Hstatus. simpl.
  pose proof (str_slice_to_length 500 (text resp)) as Hlen.
  destruct (body_json resp) as [v|] eqn:Hbody; simpl.
  - destruct v as [| | | | |items|fields]; simpl; rewrite ?andb_false_r; simpl;
      try (eexists; split; [|split; [exact Hlen|eexists; split; reflexivity]];
           reflexivity).
    destruct ((status_code resp =? 422)
              && is_list (default JNull (dict_get "errors" fields))) eqn:H422.
    + exfalso. apply Hnot.
      apply andb_prop in H422 as [H1 H2]. apply Z.eqb_eq in H1.
      split; [exact H1|].
      destruct (dict_get "errors" fields) as [[| | | | |errs|]|] eqn:Herrs;
        try discriminate H2.
      exists fields, errs. auto.
    + rewrite andb_true_r in *. rewrite H422. simpl.
      eexists; split; [|split; [exact Hlen|split; reflexivity]]. reflexivity.
  - eexists; split; [|split; [exact Hlen|split; reflexivity]]. reflexivity.
Qed.

(** ** The theorems at work on the test double *)

(** C3 on the answer with the field [file] set to [aGk=]: the two
    bytes of [hi] are written to [/work/out.docx]. *)
Lemma success_writes_decoded_bytes_witness :
  exists st',
    run Mock.success_world Mock.args (start ∅) = (Exited 0, st') /\
    disk st' = <["/work/out.docx" := [Byte.x68; Byte.x69]]> ∅ /\
    disk st' !! "/work/out.docx" = Some [Byte.x68; Byte.x69] /\
    stdout st' =
      [PrintJson (Some 2)
         (JObj [("ok", JBool true); ("output", JStr "/work/out.docx")])].
Proof.
  apply (success_writes_decoded_bytes Mock.success_world Mock.args ∅
           Mock.the_job Mock.docx Mock.success_response
           [("file", JStr "aGk=")] "aGk=" [Byte.x68; Byte.x69]);
    reflexivity.
Defined.

(** C4 on a 422 answer with two errors. *)
Lemma semantic_failure_exits_2_witness :
  exists st',
    run Mock.semantic_failure_world Mock.args (start ∅) = (Exited 2, st') /\
    disk st' = ∅ /\
    stdout st' =
      [PrintJson (Some 2)
         (JObj [("ok", JBool false);
                ("error", JStr "One or more annotations could not be applied.");
                ("errors", JArr Mock.two_errors)])].
Proof.
  apply (semantic_failure_exits_2 Mock.semantic_failure_world Mock.args ∅
           Mock.the_job Mock.docx Mock.semantic_failure_response
           [("errors", JArr Mock.two_errors)] Mock.two_errors);
    reflexivity.
Defined.

(** C5 on the annotations text [7], JSON that is not an array. *)
Lemma malformed_annotations_exit_1_witness :
  exists st' msg,
    run Mock.offline_world Mock.args_not_array (start ∅) = (Exited 1, st') /\
    posts st' = [] /\
    disk st' = ∅ /\
    stdout st' = [failure (JStr msg)].
Proof.
  apply (malformed_annotations_exit_1 Mock.offline_world Mock.args_not_array ∅
           (Mock.opts_of None Mock.default_url Mock.args_not_array)
           (start ∅) "7").
  - reflexivity.
  - reflexivity.
  - right. exists (JInt 7). split; reflexivity.
Defined.

(** C10 on a [--json] file without content, next to a valid third
    positional argument. *)
Lemma empty_argument_is_usage_error_witness :
  exists st',
    run Mock.offline_world Mock.args_empty_file (start ∅) = (Exited 1, st') /\
    stdout st' = [failure (JStr usage_error)] /\
    posts st' = [] /\
    disk st' = ∅.
Proof.
  apply (empty_argument_is_usage_error Mock.offline_world Mock.args_empty_file ∅
           (Mock.opts_of (Some EmptyString) Mock.default_url Mock.args)
           (start ∅)).
  - reflexivity.
  - reflexivity.
  - left. reflexivity.
Defined.

(** C6 on an input file that is not there. *)
Lemma unreadable_input_sends_nothing_witness :
  exists msg,
    fst (run Mock.offline_world Mock.args_missing_input (start ∅)) = Exited 1 /\
    stdout (snd (run Mock.offline_world Mock.args_missing_input (start ∅)))
      = [failure (JStr ("Cannot read input file: " +:+ msg))] /\
    posts (snd (run Mock.offline_world Mock.args_missing_input (start ∅))) = [] /\
    disk (snd (run Mock.offline_world Mock.args_missing_input (start ∅))) = ∅.
Proof.
  apply (proj1 (unreadable_input_sends_nothing
                  Mock.offline_world Mock.args_missing_input ∅
                  (fst (run Mock.offline_world Mock.args_missing_input (start ∅)))
                  (snd (run Mock.offline_world Mock.args_missing_input (start ∅)))
                  (surjective_pairing _))
           Mock.job_missing_input
           (NotFound "[Errno 2] No such file or directory")).
  - reflexivity.
  - reflexivity.
Defined.

(** C8 on [--url http://x/]: the request goes to
    [http://x/api/annotate]. *)
Lemma request_url_has_no_double_slash_witness :
  req_url Mock.request_url = "http://x/api/annotate" /\
  exists o,
    parse_loop Mock.offline_world Mock.args_url init_opts (start ∅)
      = (Ret o, start ∅) /\
    (service_url o = service_url init_opts \/
     exists pre rest,
       Mock.args_url = (pre ++ "--url" :: service_url o :: rest)%list) /\
    req_url Mock.request_url = rstrip_slash (service_url o) +:+ "/api/annotate" /\
    (exists n, service_url o = rstrip_slash (service_url o) +:+ slashes n) /\
    ends_with_slash (rstrip_slash (service_url o)) = false.
Proof.
  split; [reflexivity|].
  apply (request_url_has_no_double_slash Mock.offline_world Mock.args_url ∅
           (fst (run Mock.offline_world Mock.args_url (start ∅)))
           (snd (run Mock.offline_world Mock.args_url (start ∅)))
           Mock.request_url).
  - apply surjective_pairing.
  - left. reflexivity.
Defined.

(** C9 on command lines with a third positional argument [[]] and
    the file [ann.json], which holds [[1]], given after or before the
    positional arguments: the request carries [[1]]. *)
Lemma json_file_wins_witness :
  request_annotations Mock.request_json = Some (JArr [JInt 1]) /\
  (exists o a anns,
    parse_loop Mock.offline_world Mock.args_json_last init_opts (start ∅)
      = (Ret o, start ∅) /\
    json_loads Mock.offline_world a = Ok anns /\
    request_annotations Mock.request_json = Some anns /\
    (forall pre path rest o1 st1,
        Mock.args_json_last = (pre ++ "--json" :: path :: rest)%list ->
        parse_loop Mock.offline_world pre init_opts (start ∅) = (Ret o1, st1) ->
        ~ In "--json" rest ->
        read_text Mock.offline_world path = TextOk a) /\
    (~ In "--json" Mock.args_json_last -> nth_error (positional o) 2 = Some a)) /\
  (exists o a anns,
    parse_loop Mock.offline_world Mock.args_json_first init_opts (start ∅)
      = (Ret o, start ∅) /\
    json_loads Mock.offline_world a = Ok anns /\
    request_annotations Mock.request_json = Some anns /\
    (forall pre path rest o1 st1,
        Mock.args_json_first = (pre ++ "--json" :: path :: rest)%list ->
        parse_loop Mock.offline_world pre init_opts (start ∅) = (Ret o1, st1) ->
        ~ In "--json" rest ->
        read_text Mock.offline_world path = TextOk a) /\
    (~ In "--json" Mock.args_json_first -> nth_error (positional o) 2 = Some a)).
Proof.
  split; [reflexivity|]. split.
  - apply (json_file_wins Mock.offline_world Mock.args_json_last ∅
             (fst (run Mock.offline_world Mock.args_json_last (start ∅)))
             (snd (run Mock.offline_world Mock.args_json_last (start ∅)))
             Mock.request_json).
    + apply surjective_pairing.
    + left. reflexivity.
  - apply (json_file_wins Mock.offline_world Mock.args_json_first ∅
             (fst (run Mock.offline_world Mock.args_json_first (start ∅)))
             (snd (run Mock.offline_world Mock.args_json_first (start ∅)))
             Mock.request_json).
    + apply surjective_pairing.
    + left. reflexivity.
Defined.

(** C1 at its failing input: the answer 200 with the body [{}]. *)
Lemma missing_file_field_leaves_empty_output_witness :
  exists st',
    run Mock.no_field_world Mock.args (start ∅) = (Exited 1, st') /\
    stdout st' = [failure (JStr "Unexpected response from service: 'file'")] /\
    disk st' = <["/work/out.docx" := []]> ∅ /\
    disk st' !! "/work/out.docx" = Some [].
Proof.
  apply (missing_file_field_leaves_empty_output Mock.no_field_world Mock.args ∅
           Mock.the_job Mock.docx Mock.no_field_response []);
    reflexivity.
Defined.

(** C2 at its failing input: the answer 500 with the body [[]]. *)
Lemma non_object_body_is_uncaught_witness :
  exists c msg st',
    run Mock.array_body_world Mock.args (start ∅) = (Traceback c msg, st') /\
    stdout st' = [] /\
    c = AttributeError /\ disk st' = ∅.
Proof.
  apply (non_object_body_is_uncaught Mock.array_body_world Mock.args ∅
           Mock.the_job Mock.docx Mock.array_body_response (JArr []));
    reflexivity.
Defined.

(** C7 at its failing input: the answer 404 whose body is a JSON
    string. *)
Lemma non_200_fallback_cases_witness :
  exists st',
    disk st' = ∅ /\
    (String.length (str_slice_to 500 "'not found'") <= 500)%nat /\
    exists msg,
      run Mock.string_body_world Mock.args (start ∅)
        = (Traceback AttributeError msg, st') /\
      stdout st' = [].
Proof.
  apply (non_200_fallback_cases Mock.string_body_world Mock.args ∅
           Mock.the_job Mock.docx Mock.string_body_response).
  - reflexivity.
  - reflexivity.
  - reflexivity.
  - simpl. lia.
  - simpl. intros [H _]. lia.
Defined.

(** ** How a run may end: lemmas *)

Lemma tidy_ret {A} P X (a : A) : tidy P X (ret a).
Proof. intros st r st' H. inversion H; reflexivity. Qed.

Lemma tidy_raise {A} (P : exn_class -> Prop) X c msg :
  P c -> tidy P X (@raise A (Exc c msg)).
Proof. intros Hc st r st' H. inversion H; auto. Qed.

Lemma tidy_exit {A} P (X : Z -> printed -> Prop) c p :
  X c p -> tidy P X (print p ;;; @sys_exit A c).
Proof. intros Hx st r st' H. inversion H; subst. exists p. auto. Qed.

Lemma tidy_bail {A} P (X : Z -> printed -> Prop) msg :
  X 1 (failure msg) -> tidy P X (@bail A msg).
Proof. intros Hx. apply (tidy_exit P X 1 (failure msg) Hx). Qed.

Lemma tidy_bind {A B} P X (m : M A) (k : A -> M B) :
  tidy P X m -> (forall a, tidy P X (k a)) -> tidy P X (bind m k).
Proof.
  intros Hm Hk st r st' H. unfold bind in H.
  destruct (m st) as [[a|e] st1] eqn:E1.
  - pose proof (Hm _ _ _ E1) as Hs. simpl in Hs.
    pose proof (Hk a _ _ _ H) as Hr. rewrite Hs in Hr. exact Hr.
  - inversion H; subst. exact (Hm _ _ _ E1).
Qed.

Lemma tidy_try {A} (Q P : exn_class -> Prop) X (m : M A) cs (h : exn -> M A) :
  tidy Q X m ->
  (forall e, tidy P X (h e)) ->
  (forall c, Q c -> existsb (subclass c) cs = false -> P c) ->
  tidy P X (try_except m cs h).
Proof.
  intros Hm Hh Hesc st r st' H. unfold try_except in H.
  destruct (m st) as [[a|e] st1] eqn:E1.
  - inversion H; subst. exact (Hm _ _ _ E1).
  - pose proof (Hm _ _ _ E1) as Hq. destruct e as [code|c msg]; simpl in H.
    + inversion H; subst. exact Hq.
    + destruct Hq as [Hc Hs].
      destruct (existsb (subclass c) cs) eqn:Hcatch.
      * pose proof (Hh _ _ _ _ H) as Hr. rewrite Hs in Hr. exact Hr.
      * inversion H; subst. auto.
Qed.

Lemma tidy_weaken {A} (P P' : exn_class -> Prop) (X X' : Z -> printed -> Prop)
    (m : M A) :
  (forall c, P c -> P' c) -> (forall c p, X c p -> X' c p) ->
  tidy P X m -> tidy P' X' m.
Proof.
  intros HP HX Hm st r st' H. pose proof (Hm _ _ _ H) as Hr.
  destruct r as [a|[c|c msg]]; auto.
  - destruct Hr as (p & Hp & Hx). eauto.
  - destruct Hr as [Hc Hs]. auto.
Qed.

Lemma early_exit_failure (msg : string) : early_exit 1 (failure (JStr msg)).
Proof. right. eauto. Qed.

Lemma early_exit_usage : early_exit 0 (PrintText usage_text).
Proof. left. auto. Qed.

Section Endings.

Context (E : Env).

Lemma tidy_parse_loop (args : list string) :
  forall o, tidy (eq UnicodeDecodeError) early_exit (parse_loop E args o).
Proof.
  induction args as [|a l IH1 IH2] using list_ind2; intros o.
  - apply tidy_ret.
  - assert (Hafter : forall o',
               tidy (eq UnicodeDecodeError) early_exit
                 (match l with
                  | [] => ret o'
                  | _ :: rest' => parse_loop E rest' o'
                  end)).
    { intros o'. destruct l as [|v l']; [apply tidy_ret|].
      apply (IH2 v l' eq_refl). }
    assert (Hvalue : forall msg,
               tidy (eq UnicodeDecodeError) early_exit
                 (try_except (next_arg l) [IndexError]
                    (fun _ => bail (JStr msg)))).
    { intros msg. apply tidy_try with (Q := eq IndexError).
      - destruct l; [apply tidy_raise; reflexivity | apply tidy_ret].
      - intros e. apply tidy_bail, early_exit_failure.
      - intros c <-. discriminate. }
    simpl.
    repeat match goal with
           | |- tidy _ _ (if ?b then _ else _) => destruct b
           end.
    + apply tidy_bind; [|intros; apply Hafter].
      apply tidy_try with (Q := reading).
      * apply tidy_bind.
        -- destruct l; [apply tidy_raise; left; reflexivity | apply tidy_ret].
        -- intros p. unfold open_read_text.
           destruct (read_text E p) as [c|[m|m]|m]; simpl.
           ++ apply tidy_ret.
           ++ apply tidy_raise. right; left; reflexivity.
           ++ apply tidy_raise. right; right; left; reflexivity.
           ++ apply tidy_raise. right; right; right; reflexivity.
      * intros e. apply tidy_bail, early_exit_failure.
      * intros c [->|[->|[->| ->]]]; simpl; intros; try discriminate; reflexivity.
    + apply tidy_bind; [apply Hvalue | intros; apply Hafter].
    + apply tidy_bind; [apply Hvalue | intros; apply Hafter].
    + apply tidy_bind; [apply Hvalue | intros; apply Hafter].
    + apply tidy_exit, early_exit_usage.
    + apply IH1.
Qed.

Lemma tidy_parse_args (args : list string) :
  tidy (eq UnicodeDecodeError) early_exit (parse_args E args).
Proof.
  unfold parse_args.
  apply tidy_bind.
  { unfold import_requests. destruct (requests_installed E); [apply tidy_ret|].
    apply (tidy_exit _ _ 1 (failure (JStr "Missing dependency: pip install requests"))).
    apply early_exit_failure. }
  intros _. apply tidy_bind; [apply tidy_parse_loop|].
  intros o. apply tidy_bind.
  { unfold check_args.
    match goal with |- tidy _ _ (if ?b then _ else _) => destruct b end;
      [apply tidy_bail, early_exit_failure | apply tidy_ret]. }
  intros [[i out] a]. apply tidy_bind; [|intros; apply tidy_ret].
  unfold validate_annotations.
  apply tidy_try with (Q := fun c => c = JSONDecodeError \/ c = ValueError).
  - apply tidy_bind.
    + unfold loads. destruct (json_loads E a); [apply tidy_ret|].
      apply tidy_raise. left; reflexivity.
    + intros v. destruct (negb (is_list v)); [|apply tidy_ret].
      apply tidy_raise. right; reflexivity.
  - intros e. apply tidy_bail, early_exit_failure.
  - intros c [->| ->]; simpl; intros; discriminate.
Qed.

Lemma tidy_read_input (p : string) :
  tidy (eq UnicodeDecodeError) early_exit (read_input E p).
Proof.
  unfold read_input.
  apply tidy_try with (Q := fun c => c = FileNotFoundError \/ c = IOError).
  - unfold open_read_bytes.
    destruct (read_bytes E (abspath E p)) as [b|[m|m]]; simpl;
      [apply tidy_ret | apply tidy_raise; auto | apply tidy_raise; auto].
  - intros e. apply tidy_bail, early_exit_failure.
  - intros c [->| ->]; simpl; intros; discriminate.
Qed.

Lemma tidy_send_request (j : job) (b : list Byte.byte) :
  tidy (eq UnicodeDecodeError) early_exit (send_request E j b).
Proof.
  intros st r st' H. unfold send_request, try_except, requests_post in H.
  destruct (post E (build_request E j b)); simpl in H; inversion H; subst; simpl.
  - reflexivity.
  - eexists. split; [reflexivity | apply early_exit_failure].
Qed.

Lemma tidy_request_phase (args : list string) :
  tidy (eq UnicodeDecodeError) early_exit (request_phase E args).
Proof.
  unfold request_phase.
  apply tidy_bind; [apply tidy_parse_args|]. intros j.
  apply tidy_bind; [apply tidy_read_input|]. intros b.
  apply tidy_bind; [apply tidy_send_request|]. intros resp.
  apply tidy_ret.
Qed.

(** The handling of the answer never returns: it leaves through
    [sys.exit] after one print, or with an exception nobody catches. *)
Lemma handle_response_ends (out : string) (resp : response) st r st' :
  handle_response E out resp st = (r, st') ->
  exists e,
    r = Raise e /\
    match e with
    | SystemExit c => exists p, stdout st' = (stdout st ++ [p])%list /\ late_exit c p
    | Exc c _ => (c = AttributeError \/ c = TypeError) /\ stdout st' = stdout st
    end.
Proof.
  unfold handle_response, resp_json, py_subscript, py_get, b64decode,
    open_write_bytes, write_bytes, raise_os, dict_get_or_none.
  intros H. run_cases H;
    try match goal with
        | Hc : _ && is_list _ = true |- _ =>
            apply andb_prop in Hc as [_ Hc]; simpl in Hc; try discriminate Hc;
            match type of Hc with
            | is_list ?x = true => destruct x; try discriminate Hc
            end
        end;
    eexists; (split; [reflexivity|]); simpl;
    first [ solve [auto]
          | eexists; (split; [reflexivity|]);
            unfold late_exit, failure, success, semantic_failure; eauto 8 ].
Qed.

(** A run stops before the answer of the service, or handles the
    answer to the one request it sent. *)
Lemma run_inv (args : list string) d r st' :
  run E args (start d) = (r, st') ->
  (exists e, request_phase E args (start d) = (Raise e, st') /\ r = outcome_of e) \/
  (exists j b resp e,
     parse_args E args (start d) = (Ret j, start d) /\
     read_bytes E (abspath E (input_path j)) = BytesOk b /\
     post E (build_request E j b) = Ok resp /\
     handle_response E (output_path j) resp
       {| stdout := []; posts := [build_request E j b]; disk := d |}
       = (Raise e, st') /\
     r = outcome_of e).
Proof.
  unfold run, main, bind. intros H.
  destruct (request_phase E args (start d)) as [[[j resp]|e] st1] eqn:Hreq.
  - right. apply request_phase_ret in Hreq as (Hparse & b & Hb & Hpost & ->).
    simpl in H.
    match type of H with
    | context [handle_response E ?out ?rs ?s] =>
        destruct (handle_response E out rs s) as [rr st2] eqn:Hh
    end.
    destruct (handle_response_ends _ _ _ _ _ Hh) as (e & -> & _).
    exists j, b, resp, e.
    destruct e as [c|c msg]; inversion H; subst; auto 10.
  - left. exists e. destruct e as [c|c msg]; inversion H; subst; auto.
Qed.

(** A state is given by what was printed, sent and written. *)
Lemma state_eq (st st' : state) :
  stdout st' = stdout st -> posts st' = posts st -> disk st' = disk st -> st' = st.
Proof. destruct st, st'; simpl; congruence. Qed.

(** Before the answer, status 0 is the help, and nothing else was
    done. *)
Lemma request_phase_exit_0 (args : list string) st st1 :
  request_phase E args st = (Raise (SystemExit 0), st1) ->
  st1 = {| stdout := (stdout st ++ [PrintText usage_text])%list;
           posts := posts st; disk := disk st |}.
Proof.
  intros H.
  pose proof (tidy_request_phase args _ _ _ H) as (p & Hp & [[_ ->]|[Hc _]]);
    [|discriminate Hc].
  unfold request_phase, bind at 1 in H.
  destruct (parse_args E args st) as [[j|e] st2] eqn:Hparse.
  - pose proof (quiet_parse_args E args _ _ _ Hparse) as Hq. simpl in Hq. subst st2.
    unfold bind at 1 in H.
    destruct (read_input E (input_path j) st) as [[b|e] st2] eqn:Hread.
    + apply read_input_ret in Hread as (-> & _).
      unfold bind at 1 in H.
      destruct (send_request E j b st) as [[resp|e] st2] eqn:Hsend; [discriminate|].
      apply send_request_sends in Hsend as (_ & _ & He). congruence.
    + inversion H; subst.
      pose proof (quiet_read_input E _ _ _ _ Hread) as [Hposts Hd].
      apply state_eq; assumption.
  - inversion H; subst.
    pose proof (quiet_parse_args E args _ _ _ Hparse) as [Hposts Hd].
    apply state_eq; assumption.
Qed.

(** Status 2 comes from a 422 answer that is an object with an
    [errors] list, and from nothing else. *)
Lemma handle_response_exit_2 (out : string) (resp : response) st st' :
  handle_response E out resp st = (Raise (SystemExit 2), st') ->
  status_code resp = 422 /\
  exists fields errs,
    body_json resp = Some (JObj fields) /\
    dict_get "errors" fields = Some (JArr errs) /\
    st' = {| stdout := (stdout st ++ [semantic_failure (JArr errs)])%list;
             posts := posts st; disk := disk st |}.
Proof.
  unfold handle_response, resp_json, py_subscript, py_get, b64decode,
    open_write_bytes, write_bytes, raise_os, dict_get_or_none.
  intros H. run_cases H.
  match goal with
  | Hc : _ && is_list _ = true |- _ =>
      apply andb_prop in Hc as [Hs Hc]; simpl in Hc;
      rewrite andb_true_r in Hs; apply Z.eqb_eq in Hs
  end.
  split; [assumption|].
  match goal with
  | Hc : is_list ?x = true |- _ => destruct x; try discriminate Hc
  end.
  eauto 6.
Qed.

(** Status 0 after the answer comes from a 200 answer whose [file]
    field was decoded and written, and from nothing else. *)
Lemma handle_response_exit_0 (out : string) (resp : response) st st' :
  handle_response E out resp st = (Raise (SystemExit 0), st') ->
  status_code resp = 200 /\
  exists fields s decoded,
    body_json resp = Some (JObj fields) /\
    dict_get "file" fields = Some (JStr s) /\
    b64decode_str E s = Ok decoded /\
    open_wb E (abspath E out) = None /\
    st' = {| stdout := (stdout st ++ [success (abspath E out)])%list;
             posts := posts st;
             disk := <[abspath E out := decoded]> (disk st) |}.
Proof.
  unfold handle_response, resp_json, py_subscript, py_get, b64decode,
    open_write_bytes, write_bytes, raise_os, dict_get_or_none.
  intros H.
  destruct (status_code resp =? 200) eqn:Hstatus; [|run_cases H].
  apply Z.eqb_eq in Hstatus. split; [exact Hstatus|].
  run_cases H.
  rewrite lookup_insert_eq, insert_insert_eq. simpl.
  eauto 10.
Qed.

End Endings.

(** ** More properties of the script *)


(** X2. A run ends with status 2 only when the service answered 422
    with a JSON object that holds an [errors] list; it has then
    written no file and printed this list. *)
Theorem status_2_only_for_semantic_failure (E : Env) (args : list string) d st' :
  run E args (start d) = (Exited 2, st') ->
  exists j b resp fields errs,
    parse_args E args (start d) = (Ret j, start d) /\
    read_bytes E (abspath E (input_path j)) = BytesOk b /\
    post E (build_request E j b) = Ok resp /\
    status_code resp = 422 /\
    body_json resp = Some (JObj fields) /\
    dict_get "errors" fields = Some (JArr errs) /\
    stdout st' = [semantic_failure (JArr errs)] /\
    disk st' = d.
Proof.
  intros Hrun.
  apply run_inv in Hrun as [(e & Hreq & He)|(j & b & resp & e & Hparse & Hb & Hpost & Hh & He)].
  - destruct e as [c|c msg]; inversion He; subst.
    pose proof (tidy_request_phase E args _ _ _ Hreq) as (p & _ & [[Hc _]|[Hc _]]);
      discriminate Hc.
  - destruct e as [c|c msg]; inversion He; subst.
    apply handle_response_exit_2 in Hh as (Hs & fields & errs & Hbody & Herrs & ->).
    exists j, b, resp, fields, errs. simpl. auto 10.
Qed.

(** X3. A run ends with status 0 only in two cases: the help was
    asked for, and nothing was sent or written; or the service
    answered 200 with a [file] field that was decoded, and the output
    file holds the decoded bytes. *)
Theorem status_0_is_help_or_written_output (E : Env) (args : list string) d st' :
  run E args (start d) = (Exited 0, st') ->
  st' = {| stdout := [PrintText usage_text]; posts := []; disk := d |} \/
  exists j b resp fields s decoded,
    parse_args E args (start d) = (Ret j, start d) /\
    read_bytes E (abspath E (input_path j)) = BytesOk b /\
    post E (build_request E j b) = Ok resp /\
    status_code resp = 200 /\
    body_json resp = Some (JObj fields) /\
    dict_get "file" fields = Some (JStr s) /\
    b64decode_str E s = Ok decoded /\
    st' = {| stdout := [success (abspath E (output_path j))];
             posts := [build_request E j b];
             disk := <[abspath E (output_path j) := decoded]> d |}.
Proof.
  intros Hrun.
  apply run_inv in Hrun as [(e & Hreq & He)|(j & b & resp & e & Hparse & Hb & Hpost & Hh & He)].
  - destruct e as [c|c msg]; inversion He; subst.
    left. apply request_phase_exit_0 in Hreq. exact Hreq.
  - destruct e as [c|c msg]; inversion He; subst.
    right.
    apply handle_response_exit_0
      in Hh as (Hs & fields & s & decoded & Hbody & Hfile & Hdec & _ & ->).
    exists j, b, resp, fields, s, decoded. simpl. auto 10.
Qed.

(** X4. When the service cannot be reached the run exits with status
    1 after its one request; the message names the service URL as it
    was given, and no file is written. *)
Theorem connection_failure_names_the_url
    (E : Env) (args : list string) d j b msg :
  parse_args E args (start d) = (Ret j, start d) ->
  read_bytes E (abspath E (input_path j)) = BytesOk b ->
  post E (build_request E j b) = Error msg ->
  run E args (start d) =
    (Exited 1,
     {| stdout :=
          [failure (JStr ("Cannot connect to annotation service at "
                          +:+ service_url (job_opts j) +:+ ": " +:+ msg))];
        posts := [build_request E j b];
        disk := d |}).
Proof.
  intros Hparse Hb Hpost.
  unfold run, main, request_phase, bind. rewrite Hparse.
  unfold read_input, try_except, open_read_bytes. rewrite Hb. simpl.
  unfold send_request, try_except, requests_post. rewrite Hpost. reflexivity.
Qed.

(** A run whose argument loop stops ends as the loop does. *)
Lemma run_stops_in_loop (E : Env) (args : list string) d e st1 :
  requests_installed E = true ->
  parse_loop E args init_opts (start d) = (Raise e, st1) ->
  run E args (start d) = (outcome_of e, st1).
Proof.
  intros Hreq Hloop.
  unfold run, main, request_phase, parse_args, bind, import_requests.
  rewrite Hreq. simpl. rewrite Hloop. destruct e; reflexivity.
Qed.

(** The loop on arguments whose first part it gets through. *)
Lemma parse_loop_after (E : Env) (pre rest : list string) d o1 st1 :
  parse_loop E pre init_opts (start d) = (Ret o1, st1) ->
  parse_loop E (pre ++ rest) init_opts (start d) = parse_loop E rest o1 (start d).
Proof. apply parse_loop_app. Qed.

(** X5. [--help] or [-h] at a place where the loop reads an option
    ends the run with status 0 and the help text, whatever follows it
    and whether or not the arguments before it would have been enough:
    nothing is sent or written. *)
Theorem help_ends_the_run
    (E : Env) (pre rest : list string) (h : string) d o1 st1 :
  requests_installed E = true ->
  parse_loop E pre init_opts (start d) = (Ret o1, st1) ->
  h = "--help" \/ h = "-h" ->
  run E (pre ++ h :: rest) (start d) =
    (Exited 0, {| stdout := [PrintText usage_text]; posts := []; disk := d |}).
Proof.
  intros Hreq Hpre Hh.
  apply (run_stops_in_loop E _ d (SystemExit 0)); [exact Hreq|].
  rewrite (parse_loop_after E pre _ d o1 st1 Hpre).
  destruct Hh as [->| ->]; reflexivity.
Qed.

(** X6. [--url], [--author] or [--initials] as the last argument has
    no value: the run exits with status 1 and says which value is
    missing; nothing is sent or written. *)
Theorem missing_option_value_exit_1
    (E : Env) (pre : list string) (flag : string) d o1 st1 :
  requests_installed E = true ->
  parse_loop E pre init_opts (start d) = (Ret o1, st1) ->
  flag = "--url" \/ flag = "--author" \/ flag = "--initials" ->
  run E (pre ++ [flag]) (start d) =
    (Exited 1,
     {| stdout := [failure (JStr ("Missing value for " +:+ flag))];
        posts := []; disk := d |}).
Proof.
  intros Hreq Hpre Hflag.
  apply (run_stops_in_loop E _ d (SystemExit 1)); [exact Hreq|].
  rewrite (parse_loop_after E pre _ d o1 st1 Hpre).
  destruct Hflag as [->|[->| ->]]; reflexivity.
Qed.

(** X7. A [--json] without a file name, or with a file that cannot
    be opened or read, ends the run with status 1 and the message
    [Cannot read JSON file:] followed by the text of the error;
    nothing is sent or written. *)
Theorem unreadable_json_file_exit_1
    (E : Env) (pre rest : list string) (msg : string) d o1 st1 :
  requests_installed E = true ->
  parse_loop E pre init_opts (start d) = (Ret o1, st1) ->
  (rest = [] /\ msg = "list index out of range") \/
  (exists p rest' e,
      rest = p :: rest' /\ read_text E p = TextOSError e /\ msg = os_error_str e) ->
  run E (pre ++ "--json" :: rest) (start d) =
    (Exited 1,
     {| stdout := [failure (JStr ("Cannot read JSON file: " +:+ msg))];
        posts := []; disk := d |}).
Proof.
  intros Hreq Hpre Hrest.
  apply (run_stops_in_loop E _ d (SystemExit 1)); [exact Hreq|].
  rewrite (parse_loop_after E pre _ d o1 st1 Hpre).
  destruct Hrest as [[-> ->]|(p & rest' & e & -> & Hread & ->)].
  - reflexivity.
  - simpl. unfold try_except, bind, open_read_text. simpl. rewrite Hread.
    destruct e; reflexivity.
Qed.

(** X8. A [--json] file that is not UTF-8 text ends the run with a
    [UnicodeDecodeError] that nothing catches: no JSON object is
    printed, nothing is sent or written. *)
Theorem json_file_not_utf8_is_uncaught
    (E : Env) (pre rest : list string) (p msg : string) d o1 st1 :
  requests_installed E = true ->
  parse_loop E pre init_opts (start d) = (Ret o1, st1) ->
  read_text E p = TextNotUtf8 msg ->
  run E (pre ++ "--json" :: p :: rest) (start d) =
    (Traceback UnicodeDecodeError msg, start d).
Proof.
  intros Hreq Hpre Hread.
  apply (run_stops_in_loop E _ d (Exc UnicodeDecodeError msg)); [exact Hreq|].
  rewrite (parse_loop_after E pre _ d o1 st1 Hpre).
  simpl. unfold try_except, bind, open_read_text. simpl. rewrite Hread.
  reflexivity.
Qed.

(** X9. Without the [requests] package every run, whatever its
    arguments (also [--help]), exits with status 1 and the message of
    the missing dependency. *)
Theorem missing_requests_exit_1 (E : Env) (args : list string) d :
  requests_installed E = false ->
  run E args (start d) =
    (Exited 1,
     {| stdout := [failure (JStr "Missing dependency: pip install requests")];
        posts := []; disk := d |}).
Proof.
  intros Hreq.
  unfold run, main, request_phase, parse_args, bind, import_requests.
  rewrite Hreq. reflexivity.
Qed.

(** X10. A run leaves every file other than the output file as it
    was. *)
Theorem other_files_untouched (E : Env) (args : list string) d (p : string) :
  (forall j, parse_args E args (start d) = (Ret j, start d) ->
             p <> abspath E (output_path j)) ->
  disk (snd (run E args (start d))) !! p = d !! p.
Proof.
  intros Hother.
  destruct (run E args (start d)) as [r st'] eqn:Hrun. simpl.
  apply run_writes_only_output in Hrun as [->|(j & decoded & Hparse & -> & _)];
    [reflexivity|].
  apply lookup_insert_ne. intros Heq. exact (Hother j Hparse (eq_sym Heq)).
Qed.


(** X12. A 200 answer with a [file] field that cannot be decoded
    leaves an empty output file: a text that is not base64 ends the run
    with status 1 and the decoder's message, a value that is not a text
    with an uncaught [TypeError]. *)
Theorem undecodable_file_field_leaves_empty_output
    (E : Env) (args : list string) d j b resp fields v :
  parse_args E args (start d) = (Ret j, start d) ->
  read_bytes E (abspath E (input_path j)) = BytesOk b ->
  post E (build_request E j b) = Ok resp ->
  status_code resp = 200 ->
  body_json resp = Some (JObj fields) ->
  dict_get "file" fields = Some v ->
  open_wb E (abspath E (output_path j)) = None ->
  (forall s decoded, v = JStr s -> b64decode_str E s <> Ok decoded) ->
  disk (snd (run E args (start d))) = <[abspath E (output_path j) := []]> d /\
  match v with
  | JStr s =>
      exists msg,
        b64decode_str E s = Error msg /\
        fst (run E args (start d)) = Exited 1 /\
        stdout (snd (run E args (start d)))
          = [failure (JStr ("Unexpected response from service: " +:+ msg))]
  | _ =>
      exists msg,
        fst (run E args (start d)) = Traceback TypeError msg /\
        stdout (snd (run E args (start d))) = []
  end.
Proof.
  intros Hparse Hb Hpost Hstatus Hbody Hfile Hopen Hbad.
  unfold run. rewrite (run_answered E args d j b resp Hparse Hb Hpost).
  unfold handle_response, try_except, bind, resp_json, open_write_bytes,
    py_subscript, b64decode, raise, ret.
  rewrite Hstatus, Hbody, Hopen. simpl. rewrite Hfile. simpl.
  destruct v as [| | | |s| |]; simpl; try (split; [reflexivity | eauto]).
  destruct (b64decode_str E s) as [decoded|msg] eqn:Hdec.
  - exfalso. exact (Hbad s decoded eq_refl Hdec).
  - simpl. split; [reflexivity | eauto].
Qed.




Lemma append_cons (c : ascii) (s t : string) :
  String c s +:+ t = String c (s +:+ t).
Proof. reflexivity. Qed.

Lemma rstrip_slash_slashes (n : nat) : rstrip_slash (slashes n) = EmptyString.
Proof. induction n as [|n IH]; simpl; [reflexivity|]. rewrite IH. reflexivity. Qed.

Lemma rstrip_slash_app_slashes (s : string) (n : nat) :
  rstrip_slash (s +:+ slashes n) = rstrip_slash s.
Proof.
  induction s as [|c s IH].
  - apply rstrip_slash_slashes.
  - rewrite append_cons. simpl. rewrite IH. reflexivity.
Qed.

Lemma rstrip_slash_id (s : string) :
  ends_with_slash s = false -> rstrip_slash s = s.
Proof.
  induction s as [|c s IH]; intros Hend; [reflexivity|].
  simpl in *. destruct s as [|c' s'].
  - simpl. rewrite Hend. reflexivity.
  - rewrite (IH Hend). reflexivity.
Qed.

(** X14. Slashes at the end of the service URL do not matter: a URL
    that ends in no slash, followed by any number of slashes, gives
    the URL itself followed by [/api/annotate]. *)
Theorem trailing_slashes_do_not_matter (base : string) (n : nat) :
  ends_with_slash base = false ->
  build_url (base +:+ slashes n) = base +:+ "/api/annotate".
Proof.
  intros Hend. unfold build_url.
  rewrite rstrip_slash_app_slashes, (rstrip_slash_id base Hend). reflexivity.
Qed.





(** X16. Annotations that are not a JSON array are reported before
    the input file is looked at: with three arguments in place the run
    exits with status 1 and [Invalid annotations JSON:] followed by
    the parser's message, or by [Expected a JSON array of annotations]
    when the text is JSON of another kind. *)
Theorem invalid_annotations_message
    (E : Env) (args : list string) d o st1 i out a (msg : string) :
  requests_installed E = true ->
  parse_loop E args init_opts (start d) = (Ret o, st1) ->
  nth_error (positional o) 0 = Some i -> i <> EmptyString ->
  nth_error (positional o) 1 = Some out -> out <> EmptyString ->
  chosen_annotations o = Some a -> a <> EmptyString ->
  json_loads E a = Error msg \/
  (msg = "Expected a JSON array of annotations" /\
   exists v, json_loads E a = Ok v /\ is_list v = false) ->
  run E args (start d) =
    (Exited 1,
     {| stdout := [failure (JStr ("Invalid annotations JSON: " +:+ msg))];
        posts := []; disk := d |}).
Proof.
  intros Hreq Hloop Hi Hi' Hout Hout' Ha Ha' Hbad.
  pose proof (quiet_parse_loop E args init_opts _ _ _ Hloop) as Hq.
  simpl in Hq. subst st1.
  unfold run, main, request_phase, parse_args, bind, import_requests.
  rewrite Hreq. simpl. rewrite Hloop.
  unfold check_args, item_or_none. rewrite Hi, Hout, Ha. simpl.
  apply String.eqb_neq in Hi', Hout', Ha'. rewrite Hi', Hout', Ha'. simpl.
  unfold validate_annotations, try_except, bind, loads.
  destruct Hbad as [->|(-> & v & -> & Hv)]; simpl; [reflexivity|].
  rewrite Hv. reflexivity.
Qed.

(** X17. With fewer than two positional arguments, or with fewer than
    three and no [--json] file, the run prints the usage error and
    exits with status 1; nothing is sent or written. *)
Theorem missing_positional_is_usage_error
    (E : Env) (args : list string) d o st1 :
  requests_installed E = true ->
  parse_loop E args init_opts (start d) = (Ret o, st1) ->
  (length (positional o) < 2)%nat \/
  (annotations_json o = None /\ (length (positional o) < 3)%nat) ->
  run E args (start d) =
    (Exited 1,
     {| stdout := [failure (JStr usage_error)]; posts := []; disk := d |}).
Proof.
  intros Hreq Hloop Hfew.
  pose proof (quiet_parse_loop E args init_opts _ _ _ Hloop) as Hq.
  simpl in Hq. subst st1.
  unfold run, main, request_phase, parse_args, bind, import_requests.
  rewrite Hreq. simpl. rewrite Hloop.
  unfold check_args, item_or_none, chosen_annotations.
  assert (Hfalsy :
    negb (truthy (nth_error (positional o) 0))
    || negb (truthy (nth_error (positional o) 1))
    || negb (truthy (match annotations_json o with
                     | Some c => Some c
                     | None =>
                         if (2 <? length (positional o))%nat
                         then nth_error (positional o) 2 else None
                     end)) = true).
  { destruct Hfew as [Hlen|[Hnone Hlen]].
    - destruct (positional o) as [|x [|y l]]; simpl in *;
        first [lia | rewrite ?orb_true_r; reflexivity].
    - rewrite Hnone.
      destruct (2 <? length (positional o))%nat eqn:Hlt.
      + apply Nat.ltb_lt in Hlt. lia.
      + simpl. rewrite orb_true_r. reflexivity. }
  rewrite Hfalsy. reflexivity.
Qed.


(** Only the option of a field assigns it. *)
Lemma parses_keeps_service_url (E : Env) o args o1 :
  parses E o args o1 -> ~ In "--url" args -> service_url o1 = service_url o.
Proof.
  induction 1 as [o|o args o' rest o1 Hturn _ IH]; intros Hno; [reflexivity|].
  destruct (turn_rest _ _ _ _ _ Hturn) as (taken & -> & _).
  rewrite IH by (intros Hin; apply Hno, in_or_app; auto).
  destruct Hturn; simpl in *; tauto || reflexivity.
Qed.

Lemma parses_keeps_author (E : Env) o args o1 :
  parses E o args o1 -> ~ In "--author" args -> author o1 = author o.
Proof.
  induction 1 as [o|o args o' rest o1 Hturn _ IH]; intros Hno; [reflexivity|].
  destruct (turn_rest _ _ _ _ _ Hturn) as (taken & -> & _).
  rewrite IH by (intros Hin; apply Hno, in_or_app; auto).
  destruct Hturn; simpl in *; tauto || reflexivity.
Qed.

Lemma parses_keeps_initials (E : Env) o args o1 :
  parses E o args o1 -> ~ In "--initials" args -> initials o1 = initials o.
Proof.
  induction 1 as [o|o args o' rest o1 Hturn _ IH]; intros Hno; [reflexivity|].
  destruct (turn_rest _ _ _ _ _ Hturn) as (taken & -> & _).
  rewrite IH by (intros Hin; apply Hno, in_or_app; auto).
  destruct Hturn; simpl in *; tauto || reflexivity.
Qed.

(** X19. Without [--author] and [--initials] on the command line the
    request carries the author [AI Assistant] and the initials
    [AI]; without [--url] it goes to the default service. *)
Theorem defaults_are_sent
    (E : Env) (args : list string) d r st' rq :
  run E args (start d) = (r, st') ->
  In rq (posts st') ->
  (~ In "--author" args -> request_field rq "author" = Some (JStr "AI Assistant")) /\
  (~ In "--initials" args -> request_field rq "initials" = Some (JStr "AI")) /\
  (~ In "--url" args ->
   req_url rq = "https://comments-service.edumagick.com/api/annotate").
Proof.
  intros Hrun Hin.
  destruct (run_posts E args d r st' Hrun) as [Hnone|(j & b & Hparse & _ & Hp)].
  { rewrite Hnone in Hin. destruct Hin. }
  rewrite Hp in Hin. destruct Hin as [<-|[]].
  apply parse_args_ret in Hparse as (_ & _ & Hloop & _).
  apply parse_loop_parses in Hloop.
  unfold request_field, build_request; simpl.
  split; [|split]; intros Hno.
  - rewrite (parses_keeps_author E _ _ _ Hloop Hno). reflexivity.
  - rewrite (parses_keeps_initials E _ _ _ Hloop Hno). reflexivity.
  - rewrite (parses_keeps_service_url E _ _ _ Hloop Hno). reflexivity.
Qed.

(** X20. The value of the last [--url], [--author] or [--initials] is
    the one the request uses, as it stands (also when it is empty or
    looks like an option): the URL after [rstrip] and with the path of
    the API, the author and the initials unchanged. *)
Theorem last_option_value_is_sent
    (E : Env) (pre rest : list string) (flag v : string) d o1 st1 r st' rq :
  parse_loop E pre init_opts (start d) = (Ret o1, st1) ->
  ~ In flag rest ->
  run E (pre ++ flag :: v :: rest) (start d) = (r, st') ->
  In rq (posts st') ->
  (flag = "--url" -> req_url rq = build_url v) /\
  (flag = "--author" -> request_field rq "author" = Some (JStr v)) /\
  (flag = "--initials" -> request_field rq "initials" = Some (JStr v)).
Proof.
  intros Hpre Hno Hrun Hin.
  destruct (run_posts E _ d r st' Hrun) as [Hnone|(j & b & Hparse & _ & Hp)].
  { rewrite Hnone in Hin. destruct Hin. }
  rewrite Hp in Hin. destruct Hin as [<-|[]].
  apply parse_args_ret in Hparse as (_ & _ & Hloop & _).
  rewrite (parse_loop_app E pre _ _ _ _ _ Hpre) in Hloop.
  unfold request_field, build_request; simpl.
  split; [|split]; intros ->; simpl in Hloop.
  - destruct rest; apply parse_loop_parses in Hloop;
      rewrite (parses_keeps_service_url E _ _ _ Hloop Hno); reflexivity.
  - destruct rest; apply parse_loop_parses in Hloop;
      rewrite (parses_keeps_author E _ _ _ Hloop Hno); reflexivity.
  - destruct rest; apply parse_loop_parses in Hloop;
      rewrite (parses_keeps_initials E _ _ _ Hloop Hno); reflexivity.
Qed.

(** X21. Options may stand anywhere among the positional arguments:
    the loop collects, in their order, the words that are neither an
    option that takes a value nor the value of one. *)
Theorem positionals_keep_their_order
    (E : Env) (args : list string) o st o1 st1 :
  parse_loop E args o st = (Ret o1, st1) ->
  positional o1 = (positional o ++ plain_words false args)%list.
Proof.
  intros H. apply parse_loop_parses in H.
  induction H as [o|o args o' rest o1 Hturn _ IH].
  - simpl. rewrite app_nil_r. reflexivity.
  - rewrite IH.
    destruct Hturn as [p c r _|u r|a r|x r|arg r Hflag]; simpl;
      try reflexivity.
    unfold flags in Hflag. simpl in Hflag.
    destruct (String.eqb_spec arg "--json"); [intuition congruence|].
    destruct (String.eqb_spec arg "--url"); [intuition congruence|].
    destruct (String.eqb_spec arg "--author"); [intuition congruence|].
    destruct (String.eqb_spec arg "--initials"); [intuition congruence|].
    simpl. rewrite <- app_assoc. reflexivity.
Qed.

(** ** More theorems at work on the test double *)

(** X2 on the 422 answer with two errors. *)
Lemma status_2_only_for_semantic_failure_witness :
  exists j b resp fields errs,
    parse_args Mock.semantic_failure_world Mock.args (start ∅) = (Ret j, start ∅) /\
    read_bytes Mock.semantic_failure_world
      (abspath Mock.semantic_failure_world (input_path j)) = BytesOk b /\
    post Mock.semantic_failure_world (build_request Mock.semantic_failure_world j b)
      = Ok resp /\
    status_code resp = 422 /\
    body_json resp = Some (JObj fields) /\
    dict_get "errors" fields = Some (JArr errs) /\
    stdout (snd (run Mock.semantic_failure_world Mock.args (start ∅)))
      = [semantic_failure (JArr errs)] /\
    disk (snd (run Mock.semantic_failure_world Mock.args (start ∅))) = ∅.
Proof.
  apply (status_2_only_for_semantic_failure Mock.semantic_failure_world Mock.args ∅
           (snd (run Mock.semantic_failure_world Mock.args (start ∅)))).
  reflexivity.
Defined.

(** X3 on the answer that carries the two bytes of [hi]. *)
Lemma status_0_is_help_or_written_output_witness :
  snd (run Mock.success_world Mock.args (start ∅))
    = {| stdout := [PrintText usage_text]; posts := []; disk := ∅ |} \/
  exists j b resp fields s decoded,
    parse_args Mock.success_world Mock.args (start ∅) = (Ret j, start ∅) /\
    read_bytes Mock.success_world (abspath Mock.success_world (input_path j))
      = BytesOk b /\
    post Mock.success_world (build_request Mock.success_world j b) = Ok resp /\
    status_code resp = 200 /\
    body_json resp = Some (JObj fields) /\
    dict_get "file" fields = Some (JStr s) /\
    b64decode_str Mock.success_world s = Ok decoded /\
    snd (run Mock.success_world Mock.args (start ∅))
      = {| stdout := [success (abspath Mock.success_world (output_path j))];
           posts := [build_request Mock.success_world j b];
           disk := <[abspath Mock.success_world (output_path j) := decoded]> ∅ |}.
Proof.
  apply (status_0_is_help_or_written_output Mock.success_world Mock.args ∅
           (snd (run Mock.success_world Mock.args (start ∅)))).
  reflexivity.
Defined.

(** X4 on a service that refuses the connection. *)
Lemma connection_failure_names_the_url_witness :
  run Mock.offline_world Mock.args (start ∅) =
    (Exited 1,
     {| stdout :=
          [failure (JStr "Cannot connect to annotation service at https://comments-service.edumagick.com/: Connection refused")];
        posts := [build_request Mock.offline_world Mock.the_job Mock.docx];
        disk := ∅ |}).
Proof.
  apply (connection_failure_names_the_url Mock.offline_world Mock.args ∅
           Mock.the_job Mock.docx "Connection refused");
    reflexivity.
Defined.

(** X5 on [in.docx --help --json missing.json]. *)
Lemma help_ends_the_run_witness :
  run Cases.offline ["in.docx"; "--help"; "--json"; "missing.json"] (start ∅) =
    (Exited 0, {| stdout := [PrintText usage_text]; posts := []; disk := ∅ |}).
Proof.
  apply (help_ends_the_run Cases.offline ["in.docx"] ["--json"; "missing.json"]
           "--help" ∅ (with_positional init_opts "in.docx") (start ∅)).
  - reflexivity.
  - reflexivity.
  - left. reflexivity.
Defined.

(** X6 on [in.docx out.docx '[]' --url]. *)
Lemma missing_option_value_exit_1_witness :
  run Cases.offline ["in.docx"; "out.docx"; "[]"; "--url"] (start ∅) =
    (Exited 1,
     {| stdout := [failure (JStr "Missing value for --url")];
        posts := []; disk := ∅ |}).
Proof.
  apply (missing_option_value_exit_1 Cases.offline Mock.args "--url" ∅
           (Mock.opts_of None Mock.default_url Mock.args) (start ∅)).
  - reflexivity.
  - reflexivity.
  - left. reflexivity.
Defined.

(** X7 on a [--json] file that may not be read. *)
Lemma unreadable_json_file_exit_1_witness :
  run Cases.offline ["in.docx"; "out.docx"; "--json"; "locked.json"] (start ∅) =
    (Exited 1,
     {| stdout :=
          [failure (JStr "Cannot read JSON file: [Errno 13] Permission denied: 'locked.json'")];
        posts := []; disk := ∅ |}).
Proof.
  apply (unreadable_json_file_exit_1 Cases.offline ["in.docx"; "out.docx"]
           ["locked.json"] "[Errno 13] Permission denied: 'locked.json'" ∅
           (Mock.opts_of None Mock.default_url ["in.docx"; "out.docx"]) (start ∅)).
  - reflexivity.
  - reflexivity.
  - right.
    exists "locked.json", [],
      (OtherOSError "[Errno 13] Permission denied: 'locked.json'").
    repeat split; reflexivity.
Defined.

(** X8 on a [--json] file in Latin-1. *)
Lemma json_file_not_utf8_is_uncaught_witness :
  run Cases.offline ["in.docx"; "out.docx"; "--json"; "latin1.json"] (start ∅) =
    (Traceback UnicodeDecodeError
       "'utf-8' codec can't decode byte 0xe9 in position 4: invalid continuation byte",
     start ∅).
Proof.
  apply (json_file_not_utf8_is_uncaught Cases.offline ["in.docx"; "out.docx"] []
           "latin1.json"
           "'utf-8' codec can't decode byte 0xe9 in position 4: invalid continuation byte"
           ∅ (Mock.opts_of None Mock.default_url ["in.docx"; "out.docx"]) (start ∅));
    reflexivity.
Defined.

(** X9 on [--help] without the package. *)
Lemma missing_requests_exit_1_witness :
  run Cases.not_installed ["--help"] (start ∅) =
    (Exited 1,
     {| stdout := [failure (JStr "Missing dependency: pip install requests")];
        posts := []; disk := ∅ |}).
Proof.
  apply (missing_requests_exit_1 Cases.not_installed ["--help"] ∅). reflexivity.
Defined.

(** X10 on a successful run over a disk that holds the input
    document: the document is as it was. *)
Lemma other_files_untouched_witness :
  disk (snd (run Mock.success_world Mock.args (start Cases.disk_with_input)))
    !! "/work/in.docx"
  = Cases.disk_with_input !! "/work/in.docx".
Proof.
  apply (other_files_untouched Mock.success_world Mock.args Cases.disk_with_input
           "/work/in.docx").
  intros j Hj.
  assert (Hjob : j = Mock.the_job).
  { pose proof (eq_refl :
      parse_args Mock.success_world Mock.args (start Cases.disk_with_input)
        = (Ret Mock.the_job, start Cases.disk_with_input)) as Hthe.
    congruence. }
  rewrite Hjob. discriminate.
Defined.


(** X12 on a [file] field of one character. *)
Lemma undecodable_file_field_leaves_empty_output_witness :
  disk (snd (run Cases.bad_base64_world Mock.args (start ∅)))
    = <["/work/out.docx" := []]> ∅ /\
  exists msg,
    b64decode_str Cases.bad_base64_world "a" = Error msg /\
    fst (run Cases.bad_base64_world Mock.args (start ∅)) = Exited 1 /\
    stdout (snd (run Cases.bad_base64_world Mock.args (start ∅)))
      = [failure (JStr ("Unexpected response from service: " +:+ msg))].
Proof.
  apply (undecodable_file_field_leaves_empty_output Cases.bad_base64_world
           Mock.args ∅ Mock.the_job Mock.docx Cases.bad_base64_response
           [("file", JStr "a")] (JStr "a")).
  - reflexivity.
  - reflexivity.
  - reflexivity.
  - reflexivity.
  - reflexivity.
  - reflexivity.
  - reflexivity.
  - intros s decoded [= <-] Hdec. vm_compute in Hdec. discriminate Hdec.
Defined.


(** X14 on [http://x] followed by three slashes. *)
Lemma trailing_slashes_do_not_matter_witness :
  build_url "http://x///" = "http://x/api/annotate".
Proof.
  apply (trailing_slashes_do_not_matter "http://x" 3). reflexivity.
Defined.


(** X16 on the annotations text [7]. *)
Lemma invalid_annotations_message_witness :
  run Mock.offline_world Mock.args_not_array (start ∅) =
    (Exited 1,
     {| stdout :=
          [failure (JStr "Invalid annotations JSON: Expected a JSON array of annotations")];
        posts := []; disk := ∅ |}).
Proof.
  apply (invalid_annotations_message Mock.offline_world Mock.args_not_array ∅
           (Mock.opts_of None Mock.default_url Mock.args_not_array) (start ∅)
           "in.docx" "out.docx" "7" "Expected a JSON array of annotations");
    try reflexivity; try discriminate.
  right. split; [reflexivity|]. exists (JInt 7). split; reflexivity.
Defined.

(** X17 on [in.docx out.docx]. *)
Lemma missing_positional_is_usage_error_witness :
  run Mock.offline_world ["in.docx"; "out.docx"] (start ∅) =
    (Exited 1,
     {| stdout := [failure (JStr usage_error)]; posts := []; disk := ∅ |}).
Proof.
  apply (missing_positional_is_usage_error Mock.offline_world
           ["in.docx"; "out.docx"] ∅
           (Mock.opts_of None Mock.default_url ["in.docx"; "out.docx"]) (start ∅)).
  - reflexivity.
  - reflexivity.
  - right. split; [reflexivity | simpl; lia].
Defined.


(** X19 on the same request. *)
Lemma defaults_are_sent_witness :
  request_field Cases.plain_request "author" = Some (JStr "AI Assistant") /\
  request_field Cases.plain_request "initials" = Some (JStr "AI") /\
  req_url Cases.plain_request = "https://comments-service.edumagick.com/api/annotate".
Proof.
  destruct (defaults_are_sent Cases.offline Mock.args ∅
              (fst (run Cases.offline Mock.args (start ∅)))
              (snd (run Cases.offline Mock.args (start ∅)))
              Cases.plain_request
              (surjective_pairing _)
              (or_introl eq_refl)) as (Hauthor & Hinitials & Hurl).
  split; [apply Hauthor; not_a_flag|].
  split; [apply Hinitials; not_a_flag | apply Hurl; not_a_flag].
Defined.

(** X20 on a command line with two [--author]: the second is sent. *)
Lemma last_option_value_is_sent_witness :
  request_field
    (build_request Cases.offline Cases.job_second_author Mock.docx) "author"
  = Some (JStr "second").
Proof.
  apply (last_option_value_is_sent Cases.offline
           ["in.docx"; "--author"; "first"] ["out.docx"; "[]"]
           "--author" "second" ∅
           {| annotations_json := None; service_url := Mock.default_url;
              author := "first"; initials := "AI"; positional := ["in.docx"] |}
           (start ∅)
           (fst (run Cases.offline Cases.args_two_authors (start ∅)))
           (snd (run Cases.offline Cases.args_two_authors (start ∅)))
           (build_request Cases.offline Cases.job_second_author Mock.docx)).
  - reflexivity.
  - not_a_flag.
  - apply surjective_pairing.
  - left. reflexivity.
  - reflexivity.
Defined.

(** X21 on a command line with options between the positional
    arguments, where [--help] is the value of [--author]. *)
Lemma positionals_keep_their_order_witness :
  positional Cases.opts_mixed = ["in.docx"; "out.docx"; "[]"].
Proof.
  apply (positionals_keep_their_order Cases.offline Cases.args_mixed
           init_opts (start ∅) Cases.opts_mixed (start ∅)).
  reflexivity.
Defined.
